(** * Scraper_Agent: the scrape -> clean -> prompt -> generate pipeline of app.py

    A shallow embedding of [scrape_website], [extract_with_gemini] and the
    "Start Scraping" button handler of [src/app.py].

    - A Python [str] is a list of Unicode code points ([N]).
    - The three external services (the HTTP client, the HTML parser and the
      generation service) are fields of a [World] record; every call the
      program makes to the network or to the UI is recorded in a trace of
      [event]s, in program order.
    - A [try] body is a computation in an error monad whose failures carry
      the class of the exception, so that the [except] clauses of the
      source dispatch on it. *)

From Stdlib Require Import List NArith ZArith Lia Bool String Ascii QArith.
From Stdlib Require Import DecimalString.
Import ListNotations.

Set Implicit Arguments.
Set Warnings "-register-all".

(* ================================================================= *)
(** ** Python strings *)

Module Py.

Definition char := N.
Definition str := list char.

(** An ASCII literal of the source, as code points. *)
Definition lit (s : string) : str := map N_of_ascii (list_ascii_of_string s).

Definition SPACE : char := 32%N.
Definition LF : char := 10%N.
Definition CR : char := 13%N.

Definition char_eqb : char -> char -> bool := N.eqb.

Fixpoint str_eqb (a b : str) : bool :=
  match a, b with
  | [], [] => true
  | x :: a', y :: b' => char_eqb x y && str_eqb a' b'
  | _, _ => false
  end.

(** [bool(s)] for a string and for a list: non-empty. *)
Definition truthy {A} (l : list A) : bool :=
  match l with [] => false | _ :: _ => true end.

(** [bool(x)] where [x] is [None] or a string. *)
Definition truthy_opt (o : option str) : bool :=
  match o with None => false | Some s => truthy s end.

(** [str.isspace] on one code point: the white-space table of CPython
    ([_PyUnicode_IsWhitespace]). *)
Definition isspace (c : char) : bool :=
  (((9 <=? c) && (c <=? 13)) || ((28 <=? c) && (c <=? 32))
   || (c =? 133) || (c =? 160) || (c =? 5760)
   || ((8192 <=? c) && (c <=? 8202))
   || (c =? 8232) || (c =? 8233) || (c =? 8239) || (c =? 8287)
   || (c =? 12288))%N.

(** The line boundaries of [str.splitlines] ([_PyUnicode_IsLinebreak]);
    the pair CR LF counts as one boundary. *)
Definition islinebreak (c : char) : bool :=
  (((10 <=? c) && (c <=? 13)) || ((28 <=? c) && (c <=? 30))
   || (c =? 133) || (c =? 8232) || (c =? 8233))%N.

Fixpoint lstrip (s : str) : str :=
  match s with
  | [] => []
  | c :: rest => if isspace c then lstrip rest else s
  end.

(** [s.rstrip()]: a character goes when it is white space and nothing
    but white space follows it. *)
Fixpoint rstrip (s : str) : str :=
  match s with
  | [] => []
  | c :: rest =>
      match rstrip rest with
      | [] => if isspace c then [] else [c]
      | kept => c :: kept
      end
  end.

(** [s.strip()] *)
Definition strip (s : str) : str := rstrip (lstrip s).

(** Puts one more character in front of the first piece. *)
Definition cons_head (c : char) (pieces : list str) : list str :=
  match pieces with
  | [] => [[c]]
  | p :: ps => (c :: p) :: ps
  end.

(** [s.splitlines()]: no line for an empty string, and no empty last line
    after a final boundary. *)
Fixpoint splitlines (s : str) : list str :=
  match s with
  | [] => []
  | c :: rest =>
      if islinebreak c then
        match rest with
        | c' :: rest' =>
            if char_eqb c CR && char_eqb c' LF
            then [] :: splitlines rest'
            else [] :: splitlines rest
        | [] => [[]]
        end
      else cons_head c (splitlines rest)
  end.

Fixpoint startswith (s prefix : str) {struct prefix} : bool :=
  match prefix, s with
  | [], _ => true
  | p :: prefix', c :: s' => char_eqb p c && startswith s' prefix'
  | _ :: _, [] => false
  end.

(** [s.split(sep)] for a non-empty [sep]: occurrences of [sep] are found
    left to right and do not overlap. [skip] counts the characters of the
    occurrence being passed over. *)
Fixpoint split_from (sep : str) (skip : nat) (s : str) : list str :=
  match s with
  | [] => [[]]
  | c :: rest =>
      match skip with
      | S k => split_from sep k rest
      | O =>
          if startswith s sep
          then [] :: split_from sep (pred (List.length sep)) rest
          else cons_head c (split_from sep 0 rest)
      end
  end.

Definition split (s sep : str) : list str := split_from sep 0 s.

(** [sep.join(pieces)] *)
Fixpoint join (sep : str) (pieces : list str) : str :=
  match pieces with
  | [] => []
  | [p] => p
  | p :: ps => p ++ sep ++ join sep ps
  end.

(** [needle in hay] *)
Fixpoint contains (hay needle : str) : bool :=
  startswith hay needle
  || match hay with
     | [] => false
     | _ :: hay' => contains hay' needle
     end.

(** [s.lower()], with the case tables of CPython 3.11 (Unicode 14.0).

    [LOWER_RANGES] lists the code points with a lower-case form as
    [(first, last, step, target)]: every [step]-th code point from [first]
    to [last] maps to [target] plus its distance from [first].
    [CASE_IGNORABLE] and [CASED] list the code points with these two
    properties as [(first, last)]. *)
Definition LOWER_RANGES : list (N * N * N * N) :=
  [(65, 90, 1, 97); (192, 214, 1, 224); (216, 222, 1, 248); (256, 302, 2,
   257); (306, 310, 2, 307); (313, 327, 2, 314); (330, 374, 2, 331); (376,
   376, 1, 255); (377, 381, 2, 378); (385, 385, 1, 595); (386, 388, 2, 387);
   (390, 390, 1, 596); (391, 391, 1, 392); (393, 394, 1, 598); (395, 395, 1,
   396); (398, 398, 1, 477); (399, 399, 1, 601); (400, 400, 1, 603); (401,
   401, 1, 402); (403, 403, 1, 608); (404, 404, 1, 611); (406, 406, 1, 617);
   (407, 407, 1, 616); (408, 408, 1, 409); (412, 412, 1, 623); (413, 413, 1,
   626); (415, 415, 1, 629); (416, 420, 2, 417); (422, 422, 1, 640); (423,
   423, 1, 424); (425, 425, 1, 643); (428, 428, 1, 429); (430, 430, 1, 648);
   (431, 431, 1, 432); (433, 434, 1, 650); (435, 437, 2, 436); (439, 439, 1,
   658); (440, 440, 1, 441); (444, 444, 1, 445); (452, 452, 1, 454); (453,
   453, 1, 454); (455, 455, 1, 457); (456, 456, 1, 457); (458, 458, 1, 460);
   (459, 475, 2, 460); (478, 494, 2, 479); (497, 497, 1, 499); (498, 500, 2,
   499); (502, 502, 1, 405); (503, 503, 1, 447); (504, 542, 2, 505); (544,
   544, 1, 414); (546, 562, 2, 547); (570, 570, 1, 11365); (571, 571, 1,
   572); (573, 573, 1, 410); (574, 574, 1, 11366); (577, 577, 1, 578); (579,
   579, 1, 384); (580, 580, 1, 649); (581, 581, 1, 652); (582, 590, 2, 583);
   (880, 882, 2, 881); (886, 886, 1, 887); (895, 895, 1, 1011); (902, 902, 1,
   940); (904, 906, 1, 941); (908, 908, 1, 972); (910, 911, 1, 973); (913,
   929, 1, 945); (932, 939, 1, 964); (975, 975, 1, 983); (984, 1006, 2, 985);
   (1012, 1012, 1, 952); (1015, 1015, 1, 1016); (1017, 1017, 1, 1010); (1018,
   1018, 1, 1019); (1021, 1023, 1, 891); (1024, 1039, 1, 1104); (1040, 1071,
   1, 1072); (1120, 1152, 2, 1121); (1162, 1214, 2, 1163); (1216, 1216, 1,
   1231); (1217, 1229, 2, 1218); (1232, 1326, 2, 1233); (1329, 1366, 1,
   1377); (4256, 4293, 1, 11520); (4295, 4295, 1, 11559); (4301, 4301, 1,
   11565); (5024, 5103, 1, 43888); (5104, 5109, 1, 5112); (7312, 7354, 1,
   4304); (7357, 7359, 1, 4349); (7680, 7828, 2, 7681); (7838, 7838, 1, 223);
   (7840, 7934, 2, 7841); (7944, 7951, 1, 7936); (7960, 7965, 1, 7952);
   (7976, 7983, 1, 7968); (7992, 7999, 1, 7984); (8008, 8013, 1, 8000);
   (8025, 8031, 2, 8017); (8040, 8047, 1, 8032); (8072, 8079, 1, 8064);
   (8088, 8095, 1, 8080); (8104, 8111, 1, 8096); (8120, 8121, 1, 8112);
   (8122, 8123, 1, 8048); (8124, 8124, 1, 8115); (8136, 8139, 1, 8050);
   (8140, 8140, 1, 8131); (8152, 8153, 1, 8144); (8154, 8155, 1, 8054);
   (8168, 8169, 1, 8160); (8170, 8171, 1, 8058); (8172, 8172, 1, 8165);
   (8184, 8185, 1, 8056); (8186, 8187, 1, 8060); (8188, 8188, 1, 8179);
   (8486, 8486, 1, 969); (8490, 8490, 1, 107); (8491, 8491, 1, 229); (8498,
   8498, 1, 8526); (8544, 8559, 1, 8560); (8579, 8579, 1, 8580); (9398, 9423,
   1, 9424); (11264, 11311, 1, 11312); (11360, 11360, 1, 11361); (11362,
   11362, 1, 619); (11363, 11363, 1, 7549); (11364, 11364, 1, 637); (11367,
   11371, 2, 11368); (11373, 11373, 1, 593); (11374, 11374, 1, 625); (11375,
   11375, 1, 592); (11376, 11376, 1, 594); (11378, 11378, 1, 11379); (11381,
   11381, 1, 11382); (11390, 11391, 1, 575); (11392, 11490, 2, 11393);
   (11499, 11501, 2, 11500); (11506, 11506, 1, 11507); (42560, 42604, 2,
   42561); (42624, 42650, 2, 42625); (42786, 42798, 2, 42787); (42802, 42862,
   2, 42803); (42873, 42875, 2, 42874); (42877, 42877, 1, 7545); (42878,
   42886, 2, 42879); (42891, 42891, 1, 42892); (42893, 42893, 1, 613);
   (42896, 42898, 2, 42897); (42902, 42920, 2, 42903); (42922, 42922, 1,
   614); (42923, 42923, 1, 604); (42924, 42924, 1, 609); (42925, 42925, 1,
   620); (42926, 42926, 1, 618); (42928, 42928, 1, 670); (42929, 42929, 1,
   647); (42930, 42930, 1, 669); (42931, 42931, 1, 43859); (42932, 42946, 2,
   42933); (42948, 42948, 1, 42900); (42949, 42949, 1, 642); (42950, 42950,
   1, 7566); (42951, 42953, 2, 42952); (42960, 42960, 1, 42961); (42966,
   42968, 2, 42967); (42997, 42997, 1, 42998); (65313, 65338, 1, 65345);
   (66560, 66599, 1, 66600); (66736, 66771, 1, 66776); (66928, 66938, 1,
   66967); (66940, 66954, 1, 66979); (66956, 66962, 1, 66995); (66964, 66965,
   1, 67003); (68736, 68786, 1, 68800); (71840, 71871, 1, 71872); (93760,
   93791, 1, 93792); (125184, 125217, 1, 125218)]%N.

Definition CASE_IGNORABLE : list (N * N) :=
  [(39, 39); (46, 46); (58, 58); (94, 94); (96, 96); (168, 168); (173, 173);
   (175, 175); (180, 180); (183, 184); (688, 879); (884, 885); (890, 890);
   (900, 901); (903, 903); (1155, 1161); (1369, 1369); (1375, 1375); (1425,
   1469); (1471, 1471); (1473, 1474); (1476, 1477); (1479, 1479); (1524,
   1524); (1536, 1541); (1552, 1562); (1564, 1564); (1600, 1600); (1611,
   1631); (1648, 1648); (1750, 1757); (1759, 1768); (1770, 1773); (1807,
   1807); (1809, 1809); (1840, 1866); (1958, 1968); (2027, 2037); (2042,
   2042); (2045, 2045); (2070, 2093); (2137, 2139); (2184, 2184); (2192,
   2193); (2200, 2207); (2249, 2306); (2362, 2362); (2364, 2364); (2369,
   2376); (2381, 2381); (2385, 2391); (2402, 2403); (2417, 2417); (2433,
   2433); (2492, 2492); (2497, 2500); (2509, 2509); (2530, 2531); (2558,
   2558); (2561, 2562); (2620, 2620); (2625, 2626); (2631, 2632); (2635,
   2637); (2641, 2641); (2672, 2673); (2677, 2677); (2689, 2690); (2748,
   2748); (2753, 2757); (2759, 2760); (2765, 2765); (2786, 2787); (2810,
   2815); (2817, 2817); (2876, 2876); (2879, 2879); (2881, 2884); (2893,
   2893); (2901, 2902); (2914, 2915); (2946, 2946); (3008, 3008); (3021,
   3021); (3072, 3072); (3076, 3076); (3132, 3132); (3134, 3136); (3142,
   3144); (3146, 3149); (3157, 3158); (3170, 3171); (3201, 3201); (3260,
   3260); (3263, 3263); (3270, 3270); (3276, 3277); (3298, 3299); (3328,
   3329); (3387, 3388); (3393, 3396); (3405, 3405); (3426, 3427); (3457,
   3457); (3530, 3530); (3538, 3540); (3542, 3542); (3633, 3633); (3636,
   3642); (3654, 3662); (3761, 3761); (3764, 3772); (3782, 3782); (3784,
   3789); (3864, 3865); (3893, 3893); (3895, 3895); (3897, 3897); (3953,
   3966); (3968, 3972); (3974, 3975); (3981, 3991); (3993, 4028); (4038,
   4038); (4141, 4144); (4146, 4151); (4153, 4154); (4157, 4158); (4184,
   4185); (4190, 4192); (4209, 4212); (4226, 4226); (4229, 4230); (4237,
   4237); (4253, 4253); (4348, 4348); (4957, 4959); (5906, 5908); (5938,
   5939); (5970, 5971); (6002, 6003); (6068, 6069); (6071, 6077); (6086,
   6086); (6089, 6099); (6103, 6103); (6109, 6109); (6155, 6159); (6211,
   6211); (6277, 6278); (6313, 6313); (6432, 6434); (6439, 6440); (6450,
   6450); (6457, 6459); (6679, 6680); (6683, 6683); (6742, 6742); (6744,
   6750); (6752, 6752); (6754, 6754); (6757, 6764); (6771, 6780); (6783,
   6783); (6823, 6823); (6832, 6862); (6912, 6915); (6964, 6964); (6966,
   6970); (6972, 6972); (6978, 6978); (7019, 7027); (7040, 7041); (7074,
   7077); (7080, 7081); (7083, 7085); (7142, 7142); (7144, 7145); (7149,
   7149); (7151, 7153); (7212, 7219); (7222, 7223); (7288, 7293); (7376,
   7378); (7380, 7392); (7394, 7400); (7405, 7405); (7412, 7412); (7416,
   7417); (7468, 7530); (7544, 7544); (7579, 7679); (8125, 8125); (8127,
   8129); (8141, 8143); (8157, 8159); (8173, 8175); (8189, 8190); (8203,
   8207); (8216, 8217); (8228, 8228); (8231, 8231); (8234, 8238); (8288,
   8292); (8294, 8303); (8305, 8305); (8319, 8319); (8336, 8348); (8400,
   8432); (11388, 11389); (11503, 11505); (11631, 11631); (11647, 11647);
   (11744, 11775); (11823, 11823); (12293, 12293); (12330, 12333); (12337,
   12341); (12347, 12347); (12441, 12446); (12540, 12542); (40981, 40981);
   (42232, 42237); (42508, 42508); (42607, 42610); (42612, 42621); (42623,
   42623); (42652, 42655); (42736, 42737); (42752, 42785); (42864, 42864);
   (42888, 42890); (42994, 42996); (43000, 43001); (43010, 43010); (43014,
   43014); (43019, 43019); (43045, 43046); (43052, 43052); (43204, 43205);
   (43232, 43249); (43263, 43263); (43302, 43309); (43335, 43345); (43392,
   43394); (43443, 43443); (43446, 43449); (43452, 43453); (43471, 43471);
   (43493, 43494); (43561, 43566); (43569, 43570); (43573, 43574); (43587,
   43587); (43596, 43596); (43632, 43632); (43644, 43644); (43696, 43696);
   (43698, 43700); (43703, 43704); (43710, 43711); (43713, 43713); (43741,
   43741); (43756, 43757); (43763, 43764); (43766, 43766); (43867, 43871);
   (43881, 43883); (44005, 44005); (44008, 44008); (44013, 44013); (64286,
   64286); (64434, 64450); (65024, 65039); (65043, 65043); (65056, 65071);
   (65106, 65106); (65109, 65109); (65279, 65279); (65287, 65287); (65294,
   65294); (65306, 65306); (65342, 65342); (65344, 65344); (65392, 65392);
   (65438, 65439); (65507, 65507); (65529, 65531); (66045, 66045); (66272,
   66272); (66422, 66426); (67456, 67461); (67463, 67504); (67506, 67514);
   (68097, 68099); (68101, 68102); (68108, 68111); (68152, 68154); (68159,
   68159); (68325, 68326); (68900, 68903); (69291, 69292); (69446, 69456);
   (69506, 69509); (69633, 69633); (69688, 69702); (69744, 69744); (69747,
   69748); (69759, 69761); (69811, 69814); (69817, 69818); (69821, 69821);
   (69826, 69826); (69837, 69837); (69888, 69890); (69927, 69931); (69933,
   69940); (70003, 70003); (70016, 70017); (70070, 70078); (70089, 70092);
   (70095, 70095); (70191, 70193); (70196, 70196); (70198, 70199); (70206,
   70206); (70367, 70367); (70371, 70378); (70400, 70401); (70459, 70460);
   (70464, 70464); (70502, 70508); (70512, 70516); (70712, 70719); (70722,
   70724); (70726, 70726); (70750, 70750); (70835, 70840); (70842, 70842);
   (70847, 70848); (70850, 70851); (71090, 71093); (71100, 71101); (71103,
   71104); (71132, 71133); (71219, 71226); (71229, 71229); (71231, 71232);
   (71339, 71339); (71341, 71341); (71344, 71349); (71351, 71351); (71453,
   71455); (71458, 71461); (71463, 71467); (71727, 71735); (71737, 71738);
   (71995, 71996); (71998, 71998); (72003, 72003); (72148, 72151); (72154,
   72155); (72160, 72160); (72193, 72202); (72243, 72248); (72251, 72254);
   (72263, 72263); (72273, 72278); (72281, 72283); (72330, 72342); (72344,
   72345); (72752, 72758); (72760, 72765); (72767, 72767); (72850, 72871);
   (72874, 72880); (72882, 72883); (72885, 72886); (73009, 73014); (73018,
   73018); (73020, 73021); (73023, 73029); (73031, 73031); (73104, 73105);
   (73109, 73109); (73111, 73111); (73459, 73460); (78896, 78904); (92912,
   92916); (92976, 92982); (92992, 92995); (94031, 94031); (94095, 94111);
   (94176, 94177); (94179, 94180); (110576, 110579); (110581, 110587);
   (110589, 110590); (113821, 113822); (113824, 113827); (118528, 118573);
   (118576, 118598); (119143, 119145); (119155, 119170); (119173, 119179);
   (119210, 119213); (119362, 119364); (121344, 121398); (121403, 121452);
   (121461, 121461); (121476, 121476); (121499, 121503); (121505, 121519);
   (122880, 122886); (122888, 122904); (122907, 122913); (122915, 122916);
   (122918, 122922); (123184, 123197); (123566, 123566); (123628, 123631);
   (125136, 125142); (125252, 125259); (127995, 127999); (917505, 917505);
   (917536, 917631); (917760, 917999)]%N.

Definition CASED : list (N * N) :=
  [(65, 90); (97, 122); (170, 170); (181, 181); (186, 186); (192, 214); (216,
   246); (248, 442); (444, 447); (452, 659); (661, 696); (704, 705); (736,
   740); (837, 837); (880, 883); (886, 887); (890, 893); (895, 895); (902,
   902); (904, 906); (908, 908); (910, 929); (931, 1013); (1015, 1153);
   (1162, 1327); (1329, 1366); (1376, 1416); (4256, 4293); (4295, 4295);
   (4301, 4301); (4304, 4346); (4349, 4351); (5024, 5109); (5112, 5117);
   (7296, 7304); (7312, 7354); (7357, 7359); (7424, 7615); (7680, 7957);
   (7960, 7965); (7968, 8005); (8008, 8013); (8016, 8023); (8025, 8025);
   (8027, 8027); (8029, 8029); (8031, 8061); (8064, 8116); (8118, 8124);
   (8126, 8126); (8130, 8132); (8134, 8140); (8144, 8147); (8150, 8155);
   (8160, 8172); (8178, 8180); (8182, 8188); (8305, 8305); (8319, 8319);
   (8336, 8348); (8450, 8450); (8455, 8455); (8458, 8467); (8469, 8469);
   (8473, 8477); (8484, 8484); (8486, 8486); (8488, 8488); (8490, 8493);
   (8495, 8500); (8505, 8505); (8508, 8511); (8517, 8521); (8526, 8526);
   (8544, 8575); (8579, 8580); (9398, 9449); (11264, 11492); (11499, 11502);
   (11506, 11507); (11520, 11557); (11559, 11559); (11565, 11565); (42560,
   42605); (42624, 42653); (42786, 42887); (42891, 42894); (42896, 42954);
   (42960, 42961); (42963, 42963); (42965, 42969); (42997, 42998); (43000,
   43002); (43824, 43866); (43868, 43880); (43888, 43967); (64256, 64262);
   (64275, 64279); (65313, 65338); (65345, 65370); (66560, 66639); (66736,
   66771); (66776, 66811); (66928, 66938); (66940, 66954); (66956, 66962);
   (66964, 66965); (66967, 66977); (66979, 66993); (66995, 67001); (67003,
   67004); (67456, 67456); (67459, 67461); (67463, 67504); (67506, 67514);
   (68736, 68786); (68800, 68850); (71840, 71903); (93760, 93823); (119808,
   119892); (119894, 119964); (119966, 119967); (119970, 119970); (119973,
   119974); (119977, 119980); (119982, 119993); (119995, 119995); (119997,
   120003); (120005, 120069); (120071, 120074); (120077, 120084); (120086,
   120092); (120094, 120121); (120123, 120126); (120128, 120132); (120134,
   120134); (120138, 120144); (120146, 120485); (120488, 120512); (120514,
   120538); (120540, 120570); (120572, 120596); (120598, 120628); (120630,
   120654); (120656, 120686); (120688, 120712); (120714, 120744); (120746,
   120770); (120772, 120779); (122624, 122633); (122635, 122654); (125184,
   125251); (127280, 127305); (127312, 127337); (127344, 127369)]%N.

Definition in_ranges (c : char) (ranges : list (N * N)) : bool :=
  existsb (fun r => (fst r <=? c) && (c <=? snd r))%N ranges.

Definition is_case_ignorable (c : char) : bool := in_ranges c CASE_IGNORABLE.
Definition is_cased (c : char) : bool := in_ranges c CASED.

Fixpoint to_lower_in (ranges : list (N * N * N * N)) (c : char) : char :=
  match ranges with
  | [] => c
  | (first, last, step, target) :: rest =>
      if ((first <=? c) && (c <=? last) && ((c - first) mod step =? 0))%N
      then (target + (c - first))%N
      else to_lower_in rest c
  end.

Definition CAPITAL_I_WITH_DOT : char := 304%N.
Definition CAPITAL_SIGMA : char := 931%N.
Definition SMALL_SIGMA : char := 963%N.
Definition FINAL_SIGMA : char := 962%N.

(** The lower-case form of one code point: one code point, but for the
    capital I with a dot above, which gives an [i] and a combining dot. *)
Definition to_lower_full (c : char) : str :=
  if char_eqb c CAPITAL_I_WITH_DOT then [105%N; 775%N]
  else [to_lower_in LOWER_RANGES c].

(** No cased letter follows: the end of the string, or a character that
    is not cased, comes first after the case-ignorable ones. *)
Fixpoint no_cased_ahead (rest : str) : bool :=
  match rest with
  | [] => true
  | c :: rest' =>
      if is_case_ignorable c then no_cased_ahead rest'
      else negb (is_cased c)
  end.

(** Whether a cased letter comes last before the next character, the
    case-ignorable ones apart. *)
Definition cased_behind (behind : bool) (c : char) : bool :=
  if is_case_ignorable c then behind else is_cased c.

(** A capital sigma gives the final sigma when a cased letter stands
    behind it and none ahead, and the small sigma otherwise. *)
Fixpoint lower_from (behind : bool) (s : str) : str :=
  match s with
  | [] => []
  | c :: rest =>
      (if char_eqb c CAPITAL_SIGMA
       then [if behind && no_cased_ahead rest
             then FINAL_SIGMA else SMALL_SIGMA]
       else to_lower_full c)
      ++ lower_from (cased_behind behind c) rest
  end.

Definition lower (s : str) : str := lower_from false s.

(** [s[:k]] for a Python integer [k]: a negative [k] counts from the end. *)
Definition slice_to (s : str) (k : Z) : str :=
  if (k <? 0)%Z
  then firstn (Z.to_nat (Z.of_nat (List.length s) + k)) s
  else firstn (Z.to_nat k) s.

(** [str(n)] for a non-negative integer. *)
Definition str_of_Z (n : Z) : str :=
  lit (NilEmpty.string_of_int (Z.to_int n)).

End Py.

Import Py.

(* ================================================================= *)
(** ** The parse tree, and what the program asks of it *)

Definition bytes := list N.

(** A page element of BeautifulSoup. [NavigableString] is the text that
    [get_text] collects; [Comment] stands for the string kinds it leaves
    out (comments, doctype, declarations). A soup is the list of the
    document object's children. *)
Inductive node : Type :=
| NavigableString (s : str)
| Comment (s : str)
| Tag (name : str) (attrs : list (str * str)) (contents : list node).

Definition soup := list node.

Definition name_in (name : str) (names : list str) : bool :=
  existsb (str_eqb name) names.

(** [tag[key]] / [tag.get(key)] on the attribute dictionary. *)
Fixpoint get_attr (attrs : list (str * str)) (key : str) : option str :=
  match attrs with
  | [] => None
  | (k, v) :: rest => if str_eqb k key then Some v else get_attr rest key
  end.

(** [tag.get_text()]: the text strings below the element, in document
    order, concatenated. *)
Fixpoint get_text (n : node) : str :=
  match n with
  | NavigableString s => s
  | Comment _ => []
  | Tag _ _ contents => flat_map get_text contents
  end.

Definition soup_get_text (sp : soup) : str := flat_map get_text sp.

(** The element and everything below it, in document order. *)
Fixpoint self_and_descendants (n : node) : list node :=
  n :: match n with
       | Tag _ _ contents => flat_map self_and_descendants contents
       | _ => []
       end.

Definition descendants (sp : soup) : list node :=
  flat_map self_and_descendants sp.

(** [soup.find_all(name, attr=True)] and [soup([names])]: the elements,
    in document order, whose name is one of [names] and which carry the
    attribute [required] when one is asked for. *)
Definition matches (names : list str) (required : option str) (n : node)
  : bool :=
  match n with
  | Tag name attrs _ =>
      name_in name names
      && match required with
         | None => true
         | Some key =>
             match get_attr attrs key with Some _ => true | None => false end
         end
  | _ => false
  end.

Definition find_all (names : list str) (required : option str) (sp : soup)
  : list node :=
  filter (matches names required) (descendants sp).

(** [for script in soup(names): script.decompose()]: every element found
    is cut out of the tree with all it contains; an element found inside
    one that is already cut is gone with it. What is left of the tree: *)
Fixpoint decompose_in (names : list str) (n : node) : list node :=
  match n with
  | Tag name attrs contents =>
      if name_in name names then []
      else [Tag name attrs (flat_map (decompose_in names) contents)]
  | _ => [n]
  end.

Definition decompose_all (names : list str) (sp : soup) : soup :=
  flat_map (decompose_in names) sp.

Definition REMOVED : list str :=
  [lit "script"; lit "style"; lit "nav"; lit "header"; lit "footer"].

(** Lines 67-69: the clean-up of the text. *)
Definition clean_text (text_content : str) : str :=
  let lines := map strip (splitlines text_content) in
  let chunks :=
    flat_map (fun line => map strip (split line (lit "  "))) lines in
  join [SPACE] (filter (@truthy char) chunks).

(** Lines 74-78: one turn of the loop over the anchors. *)
Definition add_link (links : list str) (link : node) : list str :=
  match link with
  | Tag _ attrs _ =>
      let link_text := strip (get_text link) in
      match get_attr attrs (lit "href") with
      | Some link_url =>
          if truthy link_text && truthy link_url
          then links ++ [link_text ++ lit ": " ++ link_url]
          else links
      | None => links
      end
  | _ => links
  end.

Definition collect_links (sp : soup) : list str :=
  fold_left add_link (find_all [lit "a"] (Some (lit "href")) sp) [].

(** Lines 59-80 of [scrape_website]: from the parsed page to the text and
    the links. [include_links] is the check box the source reads as a
    global. *)
Definition clean_and_collect (include_links : bool) (sp : soup)
  : str * list str :=
  let sp := decompose_all REMOVED sp in
  let text_content := soup_get_text sp in
  let text_content := clean_text text_content in
  let links := if include_links then collect_links sp else [] in
  (text_content, links).

(* ================================================================= *)
(** ** The outside world, the trace and the monad of a [try] body *)

(** A raised exception, by the class the [except] clauses tell apart. *)
Inductive exn : Type :=
| RequestException (msg : str)
| OtherException (msg : str).

Definition result (A : Type) : Type := (A + exn)%type.

(** What [requests.get] hands back when it does not raise. *)
Record Response : Type := mkResponse {
  status_code : Z;
  reason : str;
  url : str;
  content : bytes
}.

Record World : Type := mkWorld {
  (** [requests.get(url, headers={'User-Agent': ua}, timeout=t)] *)
  requests_get : str -> str -> Z -> result Response;
  (** [BeautifulSoup(content, 'html.parser')] *)
  BeautifulSoup : bytes -> result soup;
  (** [genai.configure(api_key)], [GenerativeModel(model)] and
      [generate_content(prompt, temperature, max_output_tokens)], up to the
      [.text] of the answer *)
  generate_content : str -> str -> str -> Q -> Z -> result str
}.

(** The widgets the script reads (lines 17-45). *)
Record Widgets : Type := mkWidgets {
  api_key : str;
  prompt : str;
  source_url : str;
  model_choice : str;
  max_chars : Z;
  include_links : bool;
  temperature : Q
}.

(** What the program does to the outside, one event per call:
    the GET of [requests.get], the call of the generation service, and
    the calls on the page ([st.error], [st.info], [st.success], the status
    line, the progress bar, [time.sleep]). [ShowResults] stands for the
    rendering of a successful result (lines 174-191) and keeps what is
    rendered: the result, the two counts, the model and whether links
    went into the analysis. *)
Inductive event : Type :=
| HttpGet (url user_agent : str) (timeout : Z)
| Generate (api_key model prompt : str) (temperature : Q)
    (max_output_tokens : Z)
| StError (msg : str)
| StInfo (msg : str)
| StSuccess (msg : str)
| StatusText (msg : str)
| StatusEmpty
| Progress (percent : Z)
| ProgressEmpty
| ShowResults (result : str) (characters links : nat) (model : str)
    (links_included : bool)
| Sleep (seconds : Z).

Definition is_network_call (e : event) : bool :=
  match e with
  | HttpGet _ _ _ | Generate _ _ _ _ _ => true
  | _ => false
  end.

Definition is_generate (e : event) : bool :=
  match e with Generate _ _ _ _ _ => true | _ => false end.

(** A computation: the events it caused so far, and its value or the
    exception that ended it. *)
Definition M (A : Type) : Type := (list event * result A)%type.

Definition ret {A} (a : A) : M A := ([], inl a).

Definition raise {A} (e : exn) : M A := ([], inr e).

Definition bind {A B} (m : M A) (f : A -> M B) : M B :=
  match m with
  | (t, inl a) => let (t', r) := f a in (t ++ t', r)
  | (t, inr e) => (t, inr e)
  end.

Definition emit (e : event) : M unit := ([e], inl tt).

(** An external call: its event, then what the world answers. *)
Definition call {A} (e : event) (answer : result A) : M A := ([e], answer).

(** [try: body  except Exception as e: handler(e)] *)
Definition try_except {A} (body : M A) (handler : exn -> M A) : M A :=
  match body with
  | (t, inl a) => (t, inl a)
  | (t, inr e) => let (t', r) := handler e in (t ++ t', r)
  end.

Declare Scope py_scope.
Delimit Scope py_scope with py.
Notation "x <- m ;; k" := (bind m (fun x => k))
  (at level 61, m at next level, right associativity) : py_scope.
Notation "' pat <- m ;; k" :=
  (bind m (fun x => match x with pat => k end))
  (at level 61, pat pattern, m at next level, right associativity)
  : py_scope.
Notation "m ;;; k" := (bind m (fun _ => k))
  (at level 61, right associativity) : py_scope.
Open Scope py_scope.

(* ================================================================= *)
(** ** [scrape_website] *)

(** The two prefixes of the error [scrape_website] returns. *)
Definition FETCH_FAILED : str := lit "Failed to fetch webpage: ".
Definition PARSE_FAILED : str := lit "Error parsing webpage: ".

Definition USER_AGENT : str :=
  lit "Mozilla/5.0 (Windows NT 10.0; Win64; x64) AppleWebKit/537.36 (KHTML, like Gecko) Chrome/91.0.4472.124 Safari/537.36".

(** [response.raise_for_status()] of the requests library: an [HTTPError]
    (a [RequestException]) for a status from 400 to 599, nothing
    otherwise. *)
Definition raise_for_status (r : Response) : M unit :=
  let describe (kind : str) :=
    str_of_Z (status_code r) ++ kind ++ reason r
    ++ lit " for url: " ++ url r in
  if ((400 <=? status_code r) && (status_code r <? 500))%Z
  then raise (RequestException (describe (lit " Client Error: ")))
  else if ((500 <=? status_code r) && (status_code r <? 600))%Z
  then raise (RequestException (describe (lit " Server Error: ")))
  else ret tt.

(** The value [scrape_website] returns: [(text_content, links, error)]. *)
Definition scraped : Type := (option str * list str * option str)%type.

Definition scrape_website (W : World) (G : Widgets) (page_url : str)
  : M scraped :=
  try_except
    (response <- call (HttpGet page_url USER_AGENT 10)
                      (requests_get W page_url USER_AGENT 10) ;;
     raise_for_status response ;;;
     sp <- ([], BeautifulSoup W (content response)) ;;
     let '(text_content, links) := clean_and_collect (include_links G) sp in
     ret (Some text_content, links, None))
    (fun e =>
       match e with
       | RequestException msg =>
           ret (None, [], Some (FETCH_FAILED ++ msg))
       | OtherException msg =>
           ret (None, [], Some (PARSE_FAILED ++ msg))
       end).

(* ================================================================= *)
(** ** [extract_with_gemini] *)

Definition NL : str := [LF].

(** The prefix of the error [extract_with_gemini] returns. *)
Definition GEMINI_ERROR : str := lit "Gemini API error: ".

(** Lines 95-99: the page text cut to the budget, then the links. *)
Definition content_to_analyze (G : Widgets) (text_content : str)
  (links : list str) : str :=
  let content := slice_to text_content (max_chars G) in
  if truthy links && include_links G
  then
    let links_text := join NL (firstn 20 links) in
    content ++ NL ++ NL ++ lit "Links found:" ++ NL ++ links_text
  else content.

(** The two fixed parts of the template of lines 102-112, before the
    request and after the content. *)
Definition PROMPT_HEAD : str :=
  NL ++ lit "Please extract the following information from the webpage content below:"
  ++ NL ++ NL ++ lit "EXTRACTION REQUEST: ".

Definition PROMPT_MIDDLE : str :=
  NL ++ NL ++ lit "WEBPAGE CONTENT:" ++ NL.

Definition PROMPT_TAIL : str :=
  NL ++ NL
  ++ lit "Please provide a clear, structured response with the requested information. "
  ++ NL
  ++ lit "If the information is not available, please state that clearly."
  ++ NL.

Definition extraction_prompt (G : Widgets) (text_content : str)
  (links : list str) (user_prompt : str) : str :=
  PROMPT_HEAD ++ user_prompt ++ PROMPT_MIDDLE
  ++ content_to_analyze G text_content links ++ PROMPT_TAIL.

(** The value [extract_with_gemini] returns: [(text, error)]. *)
Definition extracted : Type := (option str * option str)%type.

(** [text_content] is [None] only when [scrape_website] failed; slicing
    [None] raises a [TypeError] inside the [try]. *)
Definition extract_with_gemini (W : World) (G : Widgets)
  (text_content : option str) (links : list str)
  (user_prompt key model : str) (temp : Q) : M extracted :=
  try_except
    (text <- match text_content with
             | Some t => ret t
             | None =>
                 raise (OtherException
                          (lit "'NoneType' object is not subscriptable"))
             end ;;
     let request := extraction_prompt G text links user_prompt in
     answer <- call (Generate key model request temp 2048)
                    (generate_content W key model request temp 2048) ;;
     ret (Some answer, None))
    (fun e =>
       match e with
       | RequestException msg | OtherException msg =>
           ret (None, Some (GEMINI_ERROR ++ msg))
       end).

(* ================================================================= *)
(** ** The "Start Scraping" button *)

Definition CROSS : str := [10060%N].        (* the cross mark of st.error *)
Definition BULB : str := [128161%N].        (* the light bulb of st.info *)
Definition CHECK : str := [9989%N].         (* the check mark *)
Definition ANTENNA : str := [128225%N].     (* the satellite antenna *)
Definition ROBOT : str := [129302%N].       (* the robot face *)

Definition PLEASE_PROVIDE : str := CROSS ++ lit " Please provide: ".
Definition FETCHING : str := ANTENNA ++ lit " Fetching webpage...".
Definition PROCESSING : str := ROBOT ++ lit " Processing with Gemini AI...".
Definition COMPLETE : str := CHECK ++ lit " Complete!".
Definition SUCCESS : str := CHECK ++ lit " Scraping completed successfully!".

Definition KEY_HINT : str :=
  BULB ++ lit " Please check that your Gemini API key is correct and active.".

Definition QUOTA_HINT : str :=
  BULB ++ lit " You may have exceeded your API quota. Try again later or check your API limits.".

(** Lines 131-134. *)
Definition missing_fields (G : Widgets) : list str :=
  let missing := [] in
  let missing :=
    if negb (truthy (prompt G))
    then missing ++ [lit "extraction prompt"] else missing in
  let missing :=
    if negb (truthy (source_url G))
    then missing ++ [lit "source URL"] else missing in
  let missing :=
    if negb (truthy (api_key G))
    then missing ++ [lit "API key"] else missing in
  missing.

(** Lines 165-168: the hint chosen for a generation error. *)
Definition error_hint (gemini_error : str) : option str :=
  if contains (lower gemini_error) (lit "api")
     && contains (lower gemini_error) (lit "key")
  then Some KEY_HINT
  else if contains (lower gemini_error) (lit "quota")
  then Some QUOTA_HINT
  else None.

Definition show_hint (gemini_error : str) : M unit :=
  match error_hint gemini_error with
  | Some hint => emit (StInfo hint)
  | None => ret tt
  end.

(** Lines 130-196: the body of [if st.button(...)]. *)
Definition start_scraping (W : World) (G : Widgets) : M unit :=
  if negb (forallb (@truthy char) [prompt G; source_url G; api_key G])
  then
    emit (StError (PLEASE_PROVIDE ++ join (lit ", ") (missing_fields G)))
  else
    emit (Progress 0) ;;;
    emit StatusEmpty ;;;
    emit (StatusText FETCHING) ;;;
    emit (Progress 25) ;;;
    '(text_content, links, scrape_error) <-
       scrape_website W G (source_url G) ;;
    (if truthy_opt scrape_error
     then
       emit (StError (CROSS ++ lit " "
                      ++ match scrape_error with Some e => e | None => [] end))
     else
       emit (StatusText PROCESSING) ;;;
       emit (Progress 75) ;;;
       '(result, gemini_error) <-
          extract_with_gemini W G text_content links (prompt G) (api_key G)
            (model_choice G) (temperature G) ;;
       emit (Progress 100) ;;;
       emit (StatusText COMPLETE) ;;;
       (if truthy_opt gemini_error
        then
          let gemini_error :=
            match gemini_error with Some e => e | None => [] end in
          emit (StError (CROSS ++ lit " " ++ gemini_error)) ;;;
          show_hint gemini_error
        else
          emit (StSuccess SUCCESS) ;;;
          emit (ShowResults
                  (match result with Some r => r | None => [] end)
                  (List.length
                     (match text_content with Some t => t | None => [] end))
                  (List.length links)
                  (model_choice G)
                  (truthy links && include_links G)))) ;;;
    emit (Sleep 1) ;;;
    emit StatusEmpty ;;;
    emit ProgressEmpty.

Definition trace {A} (m : M A) : list event := fst m.
Definition value {A} (m : M A) : result A := snd m.

(* ================================================================= *)
(** ** A model of the HTML parser

    [BeautifulSoup(markup, 'html.parser')] is a library call; the program
    takes its tree as given ([BeautifulSoup] of [World]). To run the
    program on a page source, this section gives that call on plain
    markup: start tags with attributes, end tags, character data, void
    elements, and [script]/[style] bodies taken as raw text. Comments,
    declarations and character references are outside this fragment. *)

Module HtmlParser.

Inductive token : Type :=
| StartTag (name : str) (attrs : list (str * str))
| EndTag (name : str)
| Data (s : str).

Definition LT : char := 60%N.
Definition GT : char := 62%N.
Definition SLASH : char := 47%N.
Definition EQUALS : char := 61%N.
Definition DQUOTE : char := 34%N.
Definition SQUOTE : char := 39%N.

Definition is_letter (c : char) : bool :=
  (((65 <=? c) && (c <=? 90)) || ((97 <=? c) && (c <=? 122)))%N.

Definition is_quote (c : char) : bool :=
  char_eqb c DQUOTE || char_eqb c SQUOTE.

(** The characters before the first one that satisfies [stop], and the
    rest. *)
Fixpoint break_at (stop : char -> bool) (s : str) : str * str :=
  match s with
  | [] => ([], [])
  | c :: rest =>
      if stop c then ([], s)
      else let (a, b) := break_at stop rest in (c :: a, b)
  end.

(** Where the reading of the attributes of a start tag stands. *)
Inductive attr_state : Type :=
| Between
| InName (name : str)
| AfterEquals (name : str)
| InQuoted (name : str) (quote : char) (value : str)
| InBare (name : str) (value : str).

(** Names and values are accumulated in reverse. *)
Fixpoint read_attrs (st : attr_state) (s : str) : list (str * str) :=
  match s with
  | [] =>
      match st with
      | Between => []
      | InName name | AfterEquals name => [(lower (rev name), [])]
      | InQuoted name _ value | InBare name value =>
          [(lower (rev name), rev value)]
      end
  | c :: rest =>
      match st with
      | Between =>
          if isspace c || char_eqb c SLASH then read_attrs Between rest
          else read_attrs (InName [c]) rest
      | InName name =>
          if char_eqb c EQUALS then read_attrs (AfterEquals name) rest
          else if isspace c
          then (lower (rev name), []) :: read_attrs Between rest
          else read_attrs (InName (c :: name)) rest
      | AfterEquals name =>
          if is_quote c then read_attrs (InQuoted name c []) rest
          else if isspace c
          then (lower (rev name), []) :: read_attrs Between rest
          else read_attrs (InBare name [c]) rest
      | InQuoted name quote value =>
          if char_eqb c quote
          then (lower (rev name), rev value) :: read_attrs Between rest
          else read_attrs (InQuoted name quote (c :: value)) rest
      | InBare name value =>
          if isspace c
          then (lower (rev name), rev value) :: read_attrs Between rest
          else read_attrs (InBare name (c :: value)) rest
      end
  end.

(** A later attribute of the same name replaces an earlier one. *)
Fixpoint last_wins (attrs : list (str * str)) : list (str * str) :=
  match attrs with
  | [] => []
  | (k, v) :: rest =>
      match get_attr rest k with
      | Some _ => last_wins rest
      | None => (k, v) :: last_wins rest
      end
  end.

(** The token of what stands between [<] and [>]. *)
Definition tag_token (body : str) : token :=
  match body with
  | c :: name =>
      if char_eqb c SLASH then EndTag (lower (strip name))
      else
        let (name, rest) :=
          break_at (fun c => isspace c || char_eqb c SLASH) body in
        StartTag (lower name) (last_wins (read_attrs Between rest))
  | [] => Data [LT; GT]
  end.

Definition RAW_TEXT : list str := [lit "script"; lit "style"].

Inductive lexer_state : Type :=
| InData (acc : str)
| InTag (acc : str) (quote : option char)
| InRaw (name : str) (acc : str).

Definition data_token (acc : str) : list token :=
  match acc with [] => [] | _ => [Data (rev acc)] end.

Definition after_tag (t : token) : lexer_state :=
  match t with
  | StartTag name _ =>
      if name_in name RAW_TEXT then InRaw name [] else InData []
  | _ => InData []
  end.

(** [<] opens a tag when a letter or [/] follows. *)
Definition opens_tag (rest : str) : bool :=
  match rest with
  | c :: _ => is_letter c || char_eqb c SLASH
  | [] => false
  end.

Fixpoint lex (st : lexer_state) (s : str) : list token :=
  match s with
  | [] =>
      match st with
      | InData acc | InRaw _ acc => data_token acc
      | InTag acc _ => data_token (acc ++ [LT])
      end
  | c :: rest =>
      match st with
      | InData acc =>
          if char_eqb c LT && opens_tag rest
          then data_token acc ++ lex (InTag [] None) rest
          else lex (InData (c :: acc)) rest
      | InTag acc (Some quote) =>
          lex (InTag (c :: acc)
                 (if char_eqb c quote then None else Some quote)) rest
      | InTag acc None =>
          if char_eqb c GT
          then
            let t := tag_token (rev acc) in
            t :: lex (after_tag t) rest
          else
            lex (InTag (c :: acc) (if is_quote c then Some c else None))
              rest
      | InRaw name acc =>
          if char_eqb c LT
             && startswith (lower rest) ([SLASH] ++ name ++ [GT])
          then data_token acc ++ lex (InTag [] None) rest
          else lex (InRaw name (c :: acc)) rest
      end
  end.

(** An element still open: its name, its attributes and the children it
    has so far, the last one first. *)
Definition frame : Type := (str * list (str * str) * list node)%type.

(** The open elements, innermost first, and the children of the document,
    the last one first. *)
Definition builder : Type := (list frame * list node)%type.

Definition add_child (n : node) (b : builder) : builder :=
  match b with
  | ((name, attrs, children) :: outer, top) =>
      ((name, attrs, n :: children) :: outer, top)
  | ([], top) => ([], n :: top)
  end.

Definition pop_tag (b : builder) : builder :=
  match b with
  | ((name, attrs, children) :: outer, top) =>
      add_child (Tag name attrs (rev children)) (outer, top)
  | ([], top) => b
  end.

Definition is_open (name : str) (b : builder) : bool :=
  existsb (fun f : frame => str_eqb (fst (fst f)) name) (fst b).

(** Closes the open elements up to and with the innermost one called
    [name]; [depth] bounds the number of elements closed. *)
Fixpoint pop_to_tag (name : str) (depth : nat) (b : builder) : builder :=
  match depth, b with
  | S d, ((n, _, _) :: _, _) =>
      if str_eqb n name then pop_tag b else pop_to_tag name d (pop_tag b)
  | _, _ => b
  end.

Fixpoint close_all (depth : nat) (b : builder) : builder :=
  match depth, b with
  | S d, (_ :: _, _) => close_all d (pop_tag b)
  | _, _ => b
  end.

Definition VOID : list str :=
  map lit ["area"; "base"; "br"; "col"; "embed"; "hr"; "img"; "input";
           "keygen"; "link"; "menuitem"; "meta"; "param"; "source";
           "track"; "wbr"]%string.

Definition PRESERVE_WHITESPACE : list str := [lit "pre"; lit "textarea"].

Definition is_ascii_space (c : char) : bool :=
  existsb (char_eqb c) [32; 10; 9; 12; 13]%N.

(** A string of ASCII white space only shrinks to one line feed or one
    space, unless a [pre] or [textarea] is open. *)
Definition collapse (b : builder) (s : str) : str :=
  if forallb is_ascii_space s
     && negb (existsb (fun f : frame =>
                         name_in (fst (fst f)) PRESERVE_WHITESPACE) (fst b))
  then (if existsb (char_eqb LF) s then [LF] else [SPACE])
  else s.

Definition feed (b : builder) (t : token) : builder :=
  match t with
  | StartTag name attrs =>
      if name_in name VOID then add_child (Tag name attrs []) b
      else ((name, attrs, []) :: fst b, snd b)
  | EndTag name =>
      if is_open name b then pop_to_tag name (List.length (fst b)) b else b
  | Data s => add_child (NavigableString (collapse b s)) b
  end.

Definition build (tokens : list token) : soup :=
  let b := fold_left feed tokens ([], []) in
  rev (snd (close_all (List.length (fst b)) b)).

Definition parse (markup : bytes) : soup := build (lex (InData []) markup).

End HtmlParser.

Definition FIXTURE : bytes :=
  lit "<html><body><script>ignore()</script><h1>Title</h1><p>Price: $10  Price: $20</p></body></html>".

(* ================================================================= *)
(** ** Notions used in the statements *)

(** *** The shape of a string *)

(** Two spaces side by side somewhere in the string. *)
Fixpoint double_space (s : str) : bool :=
  match s with
  | c :: rest =>
      match rest with
      | c' :: _ => (char_eqb c SPACE && char_eqb c' SPACE) || double_space rest
      | [] => false
      end
  | [] => false
  end.

(** The first, and the last, character exists and satisfies [P]. *)
Definition first_is (P : char -> bool) (s : str) : bool :=
  match s with c :: _ => P c | [] => false end.

Fixpoint last_is (P : char -> bool) (s : str) : bool :=
  match s with
  | [] => false
  | c :: rest => match rest with [] => P c | _ :: _ => last_is P rest end
  end.

(** The separator of line 68. *)
Definition TWO_SPACES : str := [SPACE; SPACE].

Definition not_linebreak (c : char) : Prop := islinebreak c = false.

(** A string fit to stand between single spaces: not empty, no white
    space at either end, no two spaces side by side. *)
Definition tidy (s : str) : Prop :=
  s <> [] /\ first_is isspace s = false /\ last_is isspace s = false
  /\ double_space s = false.

(** *** The clean-up in words *)

(** The clean-up as the specification words it: each line trimmed and
    split on two consecutive spaces, the empty fragments dropped, the
    others joined by single spaces. *)
Definition fragments_as_stated (line : str) : list str :=
  filter (@truthy char) (split (strip line) TWO_SPACES).

Definition clean_as_stated (text : str) : str :=
  join [SPACE] (List.concat (map fragments_as_stated (splitlines text))).

(** The same with each fragment trimmed before the empty ones are
    dropped. *)
Definition fragments (line : str) : list str :=
  filter (@truthy char) (map strip (split (strip line) TWO_SPACES)).

Definition clean_by_fragments (text : str) : str :=
  join [SPACE] (List.concat (map fragments (splitlines text))).

(** The chunks line 69 joins. *)
Definition chunks_of (text_content : str) : list str :=
  filter (@truthy char)
    (flat_map (fun line => map strip (split line (lit "  ")))
       (map strip (splitlines text_content))).

(** *** A place in a page *)

(** A page with one place marked in it, at any depth. *)
Inductive context : Type :=
| Here (before after : list node)
| Inside (before : list node) (name : str) (attrs : list (str * str))
    (inner : context) (after : list node).

(** The page with [filling] put at the marked place. *)
Fixpoint plug (c : context) (filling : list node) : soup :=
  match c with
  | Here before after => before ++ filling ++ after
  | Inside before name attrs inner after =>
      before ++ Tag name attrs (plug inner filling) :: after
  end.

(** *** The anchors of a page *)

(** The anchors of a tree in document order, the text and the address of
    an anchor, and the entries the specification describes. *)
Definition is_anchor (n : node) : bool :=
  match n with
  | Tag name _ _ => str_eqb name (lit "a")
  | _ => false
  end.

Definition anchors (sp : soup) : list node :=
  filter is_anchor (descendants sp).

Definition anchor_text (n : node) : str := strip (get_text n).

Definition anchor_href (n : node) : str :=
  match n with
  | Tag _ attrs _ =>
      match get_attr attrs (lit "href") with Some v => v | None => [] end
  | _ => []
  end.

Definition linkable (n : node) : bool :=
  truthy (anchor_text n) && truthy (anchor_href n).

Definition link_entry (n : node) : str :=
  anchor_text n ++ lit ": " ++ anchor_href n.

Definition links_of (sp : soup) : list str :=
  map link_entry (filter linkable (anchors sp)).

(** *** Worlds and widget values to run the program on *)

Definition example_widgets (links_wanted : bool) : Widgets :=
  mkWidgets (lit "secret") (lit "Extract all product names and prices")
    (lit "https://example.com") (lit "gemini-1.5-flash") 5000 links_wanted
    (1 # 10).

(** An answer of the HTTP client with the given status line and body. *)
Definition page (status : Z) (status_text : string) (body : bytes)
  : result Response :=
  inl (mkResponse status (lit status_text) (lit "https://example.com/")
         body).

(** A world that answers every request with [fetched], parses with the
    parser model and answers every prompt with [generated]. *)
Definition example_world (fetched : result Response)
  (generated : result str) : World :=
  mkWorld (fun _ _ _ => fetched)
          (fun markup => inl (HtmlParser.parse markup))
          (fun _ _ _ _ _ => generated).

(** *** The failures of the fetch *)

(** The message of the [HTTPError] that [raise_for_status] raises. *)
Definition http_error_message (r : Response) (kind : str) : str :=
  str_of_Z (status_code r) ++ kind ++ reason r ++ lit " for url: " ++ url r.


(** *** Messages *)

(** [str(e)] *)
Definition exn_message (e : exn) : str :=
  match e with RequestException msg | OtherException msg => msg end.

(** The message of line 135. *)
Definition missing_message (G : Widgets) : str :=
  PLEASE_PROVIDE ++ join (lit ", ") (missing_fields G).

(** The message depends on the three inputs only through which of them
    are empty. *)
Definition names_of (no_prompt no_url no_key : bool) : list str :=
  (if no_prompt then [lit "extraction prompt"] else [])
  ++ (if no_url then [lit "source URL"] else [])
  ++ (if no_key then [lit "API key"] else []).

(** *** What the clean-up keeps *)

(** The characters of a string that are not white space, in order. *)
Definition ink (s : str) : str := filter (fun c => negb (isspace c)) s.

(** *** Anchors that become links *)

(** An anchor with a non-empty trimmed text and a non-empty [href]. *)
Definition linkable_anchor (n : node) : bool := is_anchor n && linkable n.

(** What a returned link looks like. *)
Definition well_formed_link (l : str) : Prop :=
  exists text href,
    l = text ++ lit ": " ++ href
    /\ text <> [] /\ href <> [] /\ strip text = text.

(** *** The other outcomes of the fetch and of the run *)

(** The failures the second [except] clause of [scrape_website] catches:
    an exception that is not a [RequestException], raised by the HTTP
    client or, once the status is accepted, by the parser. *)
Inductive parse_failure (W : World) (page_url : str) : str -> Prop :=
| client_raised_other (msg : str) :
    requests_get W page_url USER_AGENT 10 = inr (OtherException msg) ->
    parse_failure W page_url msg
| parser_raised (r : Response) (msg : str) :
    requests_get W page_url USER_AGENT 10 = inl r ->
    ~ (400 <= status_code r < 600)%Z ->
    BeautifulSoup W (content r) = inr (OtherException msg) ->
    parse_failure W page_url msg.

(** The calls to the network among the events of a run. *)
Definition network_calls (t : list event) : list event :=
  filter is_network_call t.

(** Lines 194-196. *)
Definition CLEAN_UP : list event := [Sleep 1; StatusEmpty; ProgressEmpty].

(** The events of a run up to the answer of the fetch. *)
Definition FETCH_EVENTS (G : Widgets) : list event :=
  [Progress 0; StatusEmpty; StatusText FETCHING; Progress 25;
   HttpGet (source_url G) USER_AGENT 10].

(** The events of a run from the fetch to the answer of the generation,
    for the text [t] and the links [links]. *)
Definition GENERATE_EVENTS (G : Widgets) (t : str) (links : list str)
  : list event :=
  [StatusText PROCESSING; Progress 75;
   Generate (api_key G) (model_choice G)
     (extraction_prompt G t links (prompt G)) (temperature G) 2048;
   Progress 100; StatusText COMPLETE].

(** The hint, if any, for the message [raw] of the exception. *)
Definition hint_events (raw : str) : list event :=
  if contains (lower raw) (lit "key") then [StInfo KEY_HINT]
  else if contains (lower raw) (lit "quota") then [StInfo QUOTA_HINT]
  else [].

(** *** Lower case and what is shown *)

(** Whether a cased letter stands behind the end of [p], for a string
    that goes on after [p]. *)
Definition cased_behind_after (behind : bool) (p : str) : bool :=
  fold_left cased_behind p behind.

Definition no_capital_sigma (p : str) : bool :=
  forallb (fun c => negb (char_eqb c CAPITAL_SIGMA)) p.

(** The lower-case form of the prefix of the error. *)
Definition GEMINI_ERROR_LOWER : str := lit "gemini api error: ".

(** The hints among the events of a run. *)
Definition is_info (e : event) : bool :=
  match e with StInfo _ => true | _ => false end.

(* ================================================================= *)
(** ** Facts about the string operations *)

Section StringFacts.

Lemma list_ind2 (A : Type) (P : list A -> Prop) :
  P [] ->
  (forall a, P [a]) ->
  (forall a b l, P l -> P (b :: l) -> P (a :: b :: l)) ->
  forall l, P l.
Proof.
  intros Hnil Hone Hstep l.
  assert (H : P l /\ forall a, P (a :: l)).
  { induction l as [|b l [IHl IHbl]].
    - split; [exact Hnil | exact Hone].
    - split; [apply IHbl | intro a; apply Hstep; [exact IHl | apply IHbl]]. }
  exact (proj1 H).
Qed.

Lemma char_eqb_sym (a b : char) : char_eqb a b = char_eqb b a.
Proof. apply N.eqb_sym. Qed.

Lemma char_eqb_eq (a b : char) : char_eqb a b = true <-> a = b.
Proof. apply N.eqb_eq. Qed.

Lemma str_eqb_eq (a b : str) : str_eqb a b = true <-> a = b.
Proof.
  revert b; induction a as [|x a IH]; intros [|y b]; simpl;
    try (split; [discriminate | discriminate]); try tauto.
  rewrite andb_true_iff, char_eqb_eq, IH.
  split; [intros [-> ->]; reflexivity | intros H; inversion H; auto].
Qed.

Lemma str_eqb_refl (a : str) : str_eqb a a = true.
Proof. apply str_eqb_eq; reflexivity. Qed.

Lemma contains_double_space (s : str) :
  contains s (lit "  ") = double_space s.
Proof.
  induction s as [|c [|c' rest] IH]; try reflexivity.
  - simpl. rewrite andb_false_r. reflexivity.
  - change (contains (c :: c' :: rest) (lit "  "))
      with (startswith (c :: c' :: rest) (lit "  ")
            || contains (c' :: rest) (lit "  ")).
    rewrite IH.
    change (double_space (c :: c' :: rest))
      with ((char_eqb c SPACE && char_eqb c' SPACE)
            || double_space (c' :: rest)).
    f_equal.
    change (startswith (c :: c' :: rest) (lit "  "))
      with (char_eqb SPACE c && (char_eqb SPACE c' && true)).
    rewrite andb_true_r, (char_eqb_sym SPACE c), (char_eqb_sym SPACE c').
    reflexivity.
Qed.

Lemma space_isspace (c : char) : char_eqb c SPACE = true -> isspace c = true.
Proof. intros H; apply char_eqb_eq in H; subst; reflexivity. Qed.

Lemma not_isspace_not_space (c : char) :
  isspace c = false -> char_eqb c SPACE = false.
Proof.
  intros H. destruct (char_eqb c SPACE) eqn:E; [|reflexivity].
  apply space_isspace in E. congruence.
Qed.

(** *** [double_space] and concatenation *)

Lemma double_space_app (p q : str) :
  double_space p = false ->
  double_space q = false ->
  last_is isspace p = false \/ first_is isspace q = false ->
  double_space (p ++ q) = false.
Proof.
  revert q. induction p as [|c | c c' p _ IH] using list_ind2; intros q Hp Hq Hends.
  - exact Hq.
  - destruct q as [|d q]; [reflexivity|].
    change (double_space ([c] ++ d :: q))
      with ((char_eqb c SPACE && char_eqb d SPACE) || double_space (d :: q)).
    rewrite Hq, orb_false_r. simpl in Hends.
    destruct Hends as [H|H]; apply not_isspace_not_space in H; rewrite H;
      [reflexivity | apply andb_false_r].
  - change (double_space ((c :: c' :: p) ++ q))
      with ((char_eqb c SPACE && char_eqb c' SPACE)
            || double_space ((c' :: p) ++ q)).
    change (double_space (c :: c' :: p))
      with ((char_eqb c SPACE && char_eqb c' SPACE)
            || double_space (c' :: p)) in Hp.
    apply orb_false_iff in Hp. destruct Hp as [Hcc Hp].
    rewrite Hcc. simpl orb. apply IH; assumption.
Qed.

Lemma double_space_suffix (a s : str) :
  double_space (a ++ s) = false -> double_space s = false.
Proof.
  induction a as [|c a IH]; [auto|].
  intros H. apply IH. simpl in H.
  destruct (a ++ s); [reflexivity|].
  apply orb_false_iff in H. tauto.
Qed.

Lemma double_space_prefix (s b : str) :
  double_space (s ++ b) = false -> double_space s = false.
Proof.
  induction s as [|c | c c' s _ IH] using list_ind2; try reflexivity.
  change (double_space ((c :: c' :: s) ++ b))
    with ((char_eqb c SPACE && char_eqb c' SPACE)
          || double_space ((c' :: s) ++ b)).
  change (double_space (c :: c' :: s))
    with ((char_eqb c SPACE && char_eqb c' SPACE) || double_space (c' :: s)).
  intros H. apply orb_false_iff in H. destruct H as [-> H].
  apply IH. exact H.
Qed.

Lemma double_space_infix (a s b : str) :
  double_space (a ++ s ++ b) = false -> double_space s = false.
Proof.
  intros H. apply double_space_suffix in H.
  apply double_space_prefix in H. exact H.
Qed.

(** *** [strip] *)

Example strip_example : strip (lit "  a b  ") = lit "a b".
Proof. reflexivity. Qed.

Lemma lstrip_app (a b : str) :
  lstrip (a ++ b)
  = match lstrip a with [] => lstrip b | kept => kept ++ b end.
Proof.
  induction a as [|c a IH]; [reflexivity|].
  simpl. destruct (isspace c); [exact IH | reflexivity].
Qed.

(** [rstrip] is [lstrip] read from the other end. *)
Lemma rstrip_rev (s : str) : rstrip s = rev (lstrip (rev s)).
Proof.
  induction s as [|c s IH]; [reflexivity|].
  cbn [rstrip rev]. rewrite lstrip_app, IH.
  destruct (lstrip (rev s)) as [|k kept].
  - simpl. destruct (isspace c); reflexivity.
  - rewrite rev_app_distr.
    assert (E : rev (k :: kept) <> []).
    { cbn [rev]. intros E. apply app_eq_nil in E. destruct E. discriminate. }
    destruct (rev (k :: kept)); [congruence | reflexivity].
Qed.

Lemma lstrip_suffix (s : str) : exists a, s = a ++ lstrip s.
Proof.
  induction s as [|c s [a IH]].
  - exists []; reflexivity.
  - simpl. destruct (isspace c).
    + exists (c :: a). simpl. f_equal. exact IH.
    + exists []. reflexivity.
Qed.

Lemma lstrip_first (s : str) : first_is isspace (lstrip s) = false.
Proof.
  induction s as [|c s IH]; [reflexivity|].
  simpl. destruct (isspace c) eqn:E; [exact IH | simpl; exact E].
Qed.

Lemma rstrip_prefix (s : str) : exists b, s = rstrip s ++ b.
Proof.
  induction s as [|c s [b IH]].
  - exists []; reflexivity.
  - simpl. destruct (rstrip s) as [|k kept] eqn:E.
    + destruct (isspace c).
      * exists (c :: s). reflexivity.
      * exists s. reflexivity.
    + exists b. simpl. f_equal. exact IH.
Qed.

Lemma rstrip_last (s : str) : last_is isspace (rstrip s) = false.
Proof.
  induction s as [|c s IH]; [reflexivity|].
  simpl. destruct (rstrip s) as [|k kept] eqn:E.
  - destruct (isspace c) eqn:Ec; [reflexivity | simpl; exact Ec].
  - exact IH.
Qed.

Lemma strip_infix (s : str) : exists a b, s = a ++ strip s ++ b.
Proof.
  unfold strip.
  destruct (lstrip_suffix s) as [a Ha].
  destruct (rstrip_prefix (lstrip s)) as [b Hb].
  exists a, b. rewrite <- Hb. exact Ha.
Qed.

Lemma strip_first (s : str) : first_is isspace (strip s) = false.
Proof.
  unfold strip.
  destruct (rstrip_prefix (lstrip s)) as [b Hb].
  pose proof (lstrip_first s) as H.
  destruct (rstrip (lstrip s)) as [|c r]; [reflexivity|].
  rewrite Hb in H. exact H.
Qed.

Lemma strip_last (s : str) : last_is isspace (strip s) = false.
Proof. apply rstrip_last. Qed.

Lemma strip_double_space (s : str) :
  double_space s = false -> double_space (strip s) = false.
Proof.
  intros H. destruct (strip_infix s) as (a & b & E).
  rewrite E in H. exact (double_space_infix _ _ _ H).
Qed.

Lemma strip_Forall (P : char -> Prop) (s : str) :
  Forall P s -> Forall P (strip s).
Proof.
  intros H. destruct (strip_infix s) as (a & b & E).
  rewrite E in H. apply Forall_app in H. destruct H as [_ H].
  apply Forall_app in H. tauto.
Qed.

(** A string that neither starts nor ends with white space is its own
    [strip]. *)
Lemma lstrip_id (s : str) : first_is isspace s = false -> lstrip s = s.
Proof. destruct s as [|c s]; [reflexivity|]. simpl. intros ->. reflexivity. Qed.

Lemma rstrip_id (s : str) :
  s <> [] -> last_is isspace s = false -> rstrip s = s.
Proof.
  induction s as [|c | c c' s _ IH] using list_ind2; intros Hne H.
  - congruence.
  - simpl in *. rewrite H. reflexivity.
  - change (rstrip (c :: c' :: s))
      with (match rstrip (c' :: s) with
            | [] => if isspace c then [] else [c]
            | kept => c :: kept
            end).
    rewrite IH; [reflexivity | discriminate | exact H].
Qed.

(** *** [split] on two spaces *)

Example split_example :
  split (lit "a    b   c  ") (lit "  ")
  = [lit "a"; []; lit "b"; lit " c"; []].
Proof. reflexivity. Qed.

Lemma split_two_cons (c : char) (rest : str) :
  split (c :: rest) TWO_SPACES =
  match rest with
  | c' :: rest' =>
      if char_eqb c SPACE && char_eqb c' SPACE
      then [] :: split rest' TWO_SPACES
      else cons_head c (split rest TWO_SPACES)
  | [] => [[c]]
  end.
Proof.
  unfold split, TWO_SPACES.
  destruct rest as [|c' rest'].
  - simpl. rewrite andb_false_r. reflexivity.
  - change (split_from [SPACE; SPACE] 0 (c :: c' :: rest'))
      with (if char_eqb SPACE c && (char_eqb SPACE c' && true)
            then [] :: split_from [SPACE; SPACE] 0 rest'
            else cons_head c (split_from [SPACE; SPACE] 0 (c' :: rest'))).
    rewrite andb_true_r, (char_eqb_sym SPACE c), (char_eqb_sym SPACE c').
    reflexivity.
Qed.

Lemma split_two_not_nil (s : str) : split s TWO_SPACES <> [].
Proof.
  destruct s as [|c rest]; [discriminate|].
  rewrite split_two_cons. destruct rest as [|c' rest]; [discriminate|].
  destruct (char_eqb c SPACE && char_eqb c' SPACE); [discriminate|].
  destruct (split (c' :: rest) TWO_SPACES); discriminate.
Qed.

(** The first piece starts as the string does. *)
Lemma split_two_first (s : str) (p : str) (ps : list str) (x : char) :
  split s TWO_SPACES = (x :: p) :: ps -> exists s', s = x :: s'.
Proof.
  destruct s as [|c rest]; [discriminate|].
  rewrite split_two_cons. destruct rest as [|c' rest].
  - intros H. inversion H. eauto.
  - destruct (char_eqb c SPACE && char_eqb c' SPACE); [discriminate|].
    destruct (split (c' :: rest) TWO_SPACES); intros H; inversion H; eauto.
Qed.

Lemma split_two_double_space (s : str) :
  Forall (fun p => double_space p = false) (split s TWO_SPACES).
Proof.
  induction s as [|c | c c' s IHs IHc] using list_ind2.
  - repeat constructor.
  - rewrite split_two_cons. repeat constructor.
  - rewrite split_two_cons.
    destruct (char_eqb c SPACE && char_eqb c' SPACE) eqn:Ecc.
    + constructor; [reflexivity | exact IHs].
    + destruct (split (c' :: s) TWO_SPACES) as [|p ps] eqn:E.
      * repeat constructor.
      * inversion IHc as [|? ? Hp Hps]; subst.
        constructor; [|exact Hps].
        destruct p as [|x p]; [reflexivity|].
        destruct (split_two_first _ E) as [s' Hs']. inversion Hs'; subst x s'.
        change (double_space (c :: c' :: p))
          with ((char_eqb c SPACE && char_eqb c' SPACE)
                || double_space (c' :: p)).
        rewrite Ecc, Hp. reflexivity.
Qed.

Lemma cons_head_Forall (P : char -> Prop) (c : char) (pieces : list str) :
  P c -> Forall (Forall P) pieces -> Forall (Forall P) (cons_head c pieces).
Proof.
  intros Hc H. destruct pieces as [|p ps]; simpl.
  - repeat constructor. exact Hc.
  - inversion H; subst. constructor; [constructor|]; assumption.
Qed.

Lemma split_two_Forall (P : char -> Prop) (s : str) :
  Forall P s -> Forall (Forall P) (split s TWO_SPACES).
Proof.
  induction s as [|c | c c' s IHs IHc] using list_ind2; intros H.
  - repeat constructor.
  - rewrite split_two_cons. repeat constructor. inversion H; assumption.
  - rewrite split_two_cons.
    inversion H as [|? ? Hc H']; subst. inversion H' as [|? ? Hc' H'']; subst.
    destruct (char_eqb c SPACE && char_eqb c' SPACE).
    + constructor; [constructor | apply IHs; exact H''].
    + apply cons_head_Forall; [exact Hc | apply IHc; exact H'].
Qed.

(** *** [splitlines] *)

Example splitlines_example :
  splitlines (lit "a" ++ [LF] ++ lit "b" ++ [CR; LF; LF] ++ lit "c" ++ [LF])
  = [lit "a"; lit "b"; []; lit "c"].
Proof. reflexivity. Qed.

Lemma splitlines_cons (c : char) (rest : str) :
  splitlines (c :: rest) =
  if islinebreak c then
    match rest with
    | c' :: rest' =>
        if char_eqb c CR && char_eqb c' LF
        then [] :: splitlines rest'
        else [] :: splitlines rest
    | [] => [[]]
    end
  else cons_head c (splitlines rest).
Proof. destruct rest; reflexivity. Qed.

Lemma splitlines_no_linebreak (s : str) :
  Forall (Forall not_linebreak) (splitlines s).
Proof.
  induction s as [|c | c c' s IHs IHc] using list_ind2.
  - constructor.
  - rewrite splitlines_cons. destruct (islinebreak c) eqn:E.
    + repeat constructor.
    + repeat constructor. exact E.
  - rewrite splitlines_cons. destruct (islinebreak c) eqn:E.
    + destruct (char_eqb c CR && char_eqb c' LF);
        (constructor; [constructor | assumption]).
    + apply cons_head_Forall; [exact E | exact IHc].
Qed.

(** A string without a line boundary is one line. *)
Lemma splitlines_one_line (s : str) :
  Forall not_linebreak s -> s <> [] -> splitlines s = [s].
Proof.
  induction s as [|c s IH]; intros H Hne; [congruence|].
  inversion H as [|? ? Hc Hs]; subst.
  rewrite splitlines_cons, Hc.
  destruct s as [|c' s]; [reflexivity|].
  rewrite IH; [reflexivity | exact Hs | discriminate].
Qed.

(** *** [join] with a single space *)

Lemma last_is_app (P : char -> bool) (a b : str) :
  b <> [] -> last_is P (a ++ b) = last_is P b.
Proof.
  intros Hb. induction a as [|c a IH]; [reflexivity|].
  simpl. destruct (a ++ b) eqn:E; [|exact IH].
  apply app_eq_nil in E. tauto.
Qed.

Lemma join_cons2 (sep p q : str) (r : list str) :
  join sep (p :: q :: r) = p ++ sep ++ join sep (q :: r).
Proof. reflexivity. Qed.

Lemma join_tidy (chunks : list str) :
  Forall tidy chunks -> chunks <> [] -> tidy (join [SPACE] chunks).
Proof.
  induction chunks as [|p | p q r _ IH] using list_ind2; intros H Hne.
  - congruence.
  - inversion H; assumption.
  - rewrite join_cons2.
    inversion H as [|? ? Hp H']; subst.
    destruct (IH H' ltac:(discriminate)) as (Jne & Jfirst & Jlast & Jds).
    destruct Hp as (pne & pfirst & plast & pds).
    set (J := join [SPACE] (q :: r)) in *.
    repeat split.
    + destruct p; [congruence | discriminate].
    + destruct p; [congruence | exact pfirst].
    + rewrite last_is_app by discriminate.
      change ([SPACE] ++ J) with (SPACE :: J).
      destruct J; [congruence | exact Jlast].
    + apply double_space_app; [exact pds | | left; exact plast].
      apply double_space_app; [reflexivity | exact Jds | right; exact Jfirst].
Qed.

Lemma join_Forall (P : char -> Prop) (sep : str) (pieces : list str) :
  Forall P sep -> Forall (Forall P) pieces -> Forall P (join sep pieces).
Proof.
  intros Hsep.
  induction pieces as [|p | p q r _ IH] using list_ind2; intros H.
  - constructor.
  - inversion H; assumption.
  - rewrite join_cons2. inversion H; subst.
    apply Forall_app; split; [assumption|].
    apply Forall_app; split; [assumption | apply IH; assumption].
Qed.

Lemma tidy_strip (s : str) : tidy s -> strip s = s.
Proof.
  intros (Hne & Hfirst & Hlast & _). unfold strip.
  rewrite lstrip_id by exact Hfirst. apply rstrip_id; assumption.
Qed.

End StringFacts.

(* ================================================================= *)
(** ** The clean-up of the text *)

Section CleanText.

Lemma clean_text_chunks (t : str) : clean_text t = join [SPACE] (chunks_of t).
Proof. reflexivity. Qed.

Lemma in_chunks_of (t chunk : str) :
  In chunk (chunks_of t) ->
  chunk <> []
  /\ exists l piece,
       In l (splitlines t) /\ In piece (split (strip l) TWO_SPACES)
       /\ chunk = strip piece.
Proof.
  unfold chunks_of. intros H. apply filter_In in H. destruct H as [H Hne].
  split; [destruct chunk; [discriminate | discriminate]|].
  apply in_flat_map in H. destruct H as (line & Hline & H).
  apply in_map_iff in Hline. destruct Hline as (l & <- & Hl).
  apply in_map_iff in H. destruct H as (piece & <- & Hpiece).
  exists l, piece. auto.
Qed.

Lemma chunks_tidy (t : str) : Forall tidy (chunks_of t).
Proof.
  apply Forall_forall. intros chunk H.
  apply in_chunks_of in H. destruct H as (Hne & l & piece & _ & Hp & ->).
  repeat split.
  - exact Hne.
  - apply strip_first.
  - apply strip_last.
  - apply strip_double_space.
    pose proof (split_two_double_space (strip l)) as HF.
    rewrite Forall_forall in HF. apply HF. exact Hp.
Qed.

Lemma chunks_no_linebreak (t : str) :
  Forall (Forall not_linebreak) (chunks_of t).
Proof.
  apply Forall_forall. intros chunk H.
  apply in_chunks_of in H. destruct H as (_ & l & piece & Hl & Hp & ->).
  apply strip_Forall.
  assert (Hline : Forall not_linebreak (strip l)).
  { apply strip_Forall.
    pose proof (splitlines_no_linebreak t) as HF.
    rewrite Forall_forall in HF. apply HF. exact Hl. }
  pose proof (split_two_Forall Hline) as HF.
  rewrite Forall_forall in HF. apply HF. exact Hp.
Qed.

Lemma clean_text_empty_or_tidy (t : str) :
  clean_text t = [] \/ tidy (clean_text t).
Proof.
  rewrite clean_text_chunks.
  destruct (chunks_of t) as [|c cs] eqn:E; [left; reflexivity|].
  right. rewrite <- E. apply join_tidy.
  - apply chunks_tidy.
  - rewrite E. discriminate.
Qed.

Lemma clean_text_no_double_space (t : str) :
  contains (clean_text t) (lit "  ") = false.
Proof.
  rewrite contains_double_space.
  destruct (clean_text_empty_or_tidy t) as [-> | (_ & _ & _ & H)];
    [reflexivity | exact H].
Qed.

Lemma clean_text_no_linebreak (t : str) :
  Forall not_linebreak (clean_text t).
Proof.
  rewrite clean_text_chunks. apply join_Forall.
  - repeat constructor.
  - apply chunks_no_linebreak.
Qed.

Lemma clean_text_no_blank_line (t : str) :
  Forall (fun line => strip line <> []) (splitlines (clean_text t)).
Proof.
  destruct (clean_text_empty_or_tidy t) as [-> | H]; [constructor|].
  rewrite splitlines_one_line.
  - constructor; [|constructor].
    rewrite tidy_strip by exact H. exact (proj1 H).
  - apply clean_text_no_linebreak.
  - exact (proj1 H).
Qed.

Lemma clean_text_by_fragments (t : str) :
  clean_text t = clean_by_fragments t.
Proof.
  rewrite clean_text_chunks. unfold clean_by_fragments, chunks_of.
  f_equal.
  induction (splitlines t) as [|l ls IH]; [reflexivity|].
  change (filter (@truthy char)
            (map strip (split (strip l) (lit "  "))
             ++ flat_map (fun line => map strip (split line (lit "  ")))
                  (map strip ls))
          = fragments l ++ List.concat (map fragments ls)).
  rewrite filter_app. f_equal. exact IH.
Qed.

End CleanText.

(** C6 (as amended). For every parsed page, the cleaned text has no two
    consecutive spaces and no line of white space only, and it is the
    text of the remaining tree with each line trimmed and split on two
    consecutive spaces, each fragment trimmed, the empty fragments
    dropped and the others joined by single spaces. *)
Theorem cleaned_text_normalised (links_wanted : bool) (sp : soup) :
  let text := fst (clean_and_collect links_wanted sp) in
  contains text (lit "  ") = false
  /\ Forall (fun line => strip line <> []) (splitlines text)
  /\ text = clean_by_fragments (soup_get_text (decompose_all REMOVED sp)).
Proof.
  simpl. repeat split.
  - apply clean_text_no_double_space.
  - apply clean_text_no_blank_line.
  - apply clean_text_by_fragments.
Qed.

(** C6 as stated fails on the page [<p>a   b</p>] (three spaces): without
    the trimming of the fragments the second fragment keeps its leading
    space. *)
Lemma cleaned_text_as_stated_counterexample :
  let sp := HtmlParser.parse (lit "<p>a   b</p>") in
  fst (clean_and_collect false sp) = lit "a b"
  /\ clean_as_stated (soup_get_text (decompose_all REMOVED sp)) = lit "a  b"
  /\ fst (clean_and_collect false sp)
     <> clean_as_stated (soup_get_text (decompose_all REMOVED sp)).
Proof.
  repeat split; try (vm_compute; reflexivity).
  vm_compute. discriminate.
Qed.

(* ================================================================= *)
(** ** What the removed elements contribute *)

Section Removal.

Lemma name_in_In (name : str) (names : list str) :
  name_in name names = true <-> In name names.
Proof.
  unfold name_in. rewrite existsb_exists. split.
  - intros (x & Hx & E). apply str_eqb_eq in E. subst. exact Hx.
  - intros H. exists name. split; [exact H | apply str_eqb_refl].
Qed.

Lemma decompose_all_app (names : list str) (a b : soup) :
  decompose_all names (a ++ b)
  = decompose_all names a ++ decompose_all names b.
Proof. apply flat_map_app. Qed.

Lemma decompose_all_cons (names : list str) (n : node) (b : soup) :
  decompose_all names (n :: b)
  = decompose_in names n ++ decompose_all names b.
Proof. reflexivity. Qed.

Lemma decompose_in_Tag (names : list str) (name : str)
  (attrs : list (str * str)) (contents : list node) :
  decompose_in names (Tag name attrs contents)
  = if name_in name names then []
    else [Tag name attrs (decompose_all names contents)].
Proof. reflexivity. Qed.

Lemma decompose_plug (names : list str) (c : context) (name : str)
  (attrs : list (str * str)) (contents : list node) :
  name_in name names = true ->
  decompose_all names (plug c [Tag name attrs contents])
  = decompose_all names (plug c []).
Proof.
  intros Hname. induction c as [before after | before n a inner IH after].
  - simpl plug. rewrite !decompose_all_app, decompose_all_cons.
    rewrite decompose_in_Tag, Hname. reflexivity.
  - simpl plug. rewrite !decompose_all_app, !decompose_all_cons.
    rewrite !decompose_in_Tag, IH. reflexivity.
Qed.

(** Induction on a page element, with the property known of all its
    children. *)
Lemma node_ind_nested (P : node -> Prop) :
  (forall s, P (NavigableString s)) ->
  (forall s, P (Comment s)) ->
  (forall name attrs contents,
      Forall P contents -> P (Tag name attrs contents)) ->
  forall n, P n.
Proof.
  intros Hstring Hcomment Htag.
  fix IH 1. intros [s | s | name attrs contents].
  - apply Hstring.
  - apply Hcomment.
  - apply Htag. induction contents as [|child rest IHrest].
    + constructor.
    + constructor; [apply IH | exact IHrest].
Qed.

Lemma descendants_app (a b : soup) :
  descendants (a ++ b) = descendants a ++ descendants b.
Proof. apply flat_map_app. Qed.

(** After the loop no element with one of the names is left, at any
    depth. *)
Lemma decompose_in_leaves_none (names : list str) (n : node) :
  find_all names None (decompose_in names n) = [].
Proof.
  induction n as [s | s | name attrs contents IH] using node_ind_nested;
    try reflexivity.
  rewrite decompose_in_Tag.
  destruct (name_in name names) eqn:E; [reflexivity|].
  unfold find_all, descendants. cbn [flat_map self_and_descendants].
  rewrite app_nil_r. cbn [filter matches]. rewrite E. cbn [andb].
  fold (descendants (decompose_all names contents)).
  induction IH as [|child rest Hchild _ IHrest]; [reflexivity|].
  rewrite decompose_all_cons, descendants_app, filter_app, IHrest.
  unfold find_all in Hchild. rewrite Hchild. reflexivity.
Qed.

Lemma decompose_all_leaves_none (names : list str) (sp : soup) :
  find_all names None (decompose_all names sp) = [].
Proof.
  induction sp as [|n sp IH]; [reflexivity|].
  rewrite decompose_all_cons. unfold find_all in *.
  rewrite descendants_app, filter_app, IH.
  pose proof (decompose_in_leaves_none names n) as H.
  unfold find_all in H. rewrite H. reflexivity.
Qed.

(** A tree with no such element is left as it is. *)
Lemma decompose_in_unchanged (names : list str) (n : node) :
  find_all names None [n] = [] -> decompose_in names n = [n].
Proof.
  induction n as [s | s | name attrs contents IH] using node_ind_nested;
    try reflexivity.
  unfold find_all, descendants. cbn [flat_map self_and_descendants].
  rewrite app_nil_r. cbn [filter matches]. rewrite andb_true_r.
  destruct (name_in name names) eqn:E; [discriminate|].
  intros H. rewrite decompose_in_Tag, E. do 2 f_equal.
  fold (descendants contents) in H.
  induction IH as [|child rest Hchild _ IHrest]; [reflexivity|].
  change (child :: rest) with ([child] ++ rest) in H.
  rewrite descendants_app, filter_app in H.
  apply app_eq_nil in H. destruct H as [H1 H2].
  rewrite decompose_all_cons, (IHrest H2), (Hchild H1). reflexivity.
Qed.

End Removal.

(** C7. A [script], [style], [nav], [header] or [footer] element, at any
    depth of the page and whatever it contains, contributes nothing: the
    text (and the links) are those of the page without the element. *)
Theorem removed_elements_contribute_nothing (links_wanted : bool)
  (c : context) (name : str) (attrs : list (str * str))
  (contents : list node) :
  In name REMOVED ->
  clean_and_collect links_wanted (plug c [Tag name attrs contents])
  = clean_and_collect links_wanted (plug c []).
Proof.
  intros H. apply name_in_In in H.
  unfold clean_and_collect. rewrite decompose_plug by exact H. reflexivity.
Qed.

Lemma removed_elements_contribute_nothing_witness :
  let c := Inside [] (lit "html") []
             (Inside [] (lit "body") []
                (Here [] [Tag (lit "h1") [] [NavigableString (lit "Title")]])
                [])
             [] in
  let hidden := [Tag (lit "b") [] [NavigableString (lit "ignore()")]] in
  In (lit "script") REMOVED
  /\ clean_and_collect false (plug c [Tag (lit "script") [] hidden])
     = clean_and_collect false (plug c []).
Proof.
  split.
  - simpl. auto.
  - apply removed_elements_contribute_nothing. simpl. auto.
Defined.

(* ================================================================= *)
(** ** The links *)

Section Links.

Lemma fold_add_link (l : list node) (acc : list str) :
  fold_left add_link
    (filter (matches [lit "a"] (Some (lit "href"))) l) acc
  = acc ++ map link_entry (filter linkable (filter is_anchor l)).
Proof.
  revert acc. induction l as [|n l IH]; intros acc.
  - simpl. rewrite app_nil_r. reflexivity.
  - cbn [filter].
    destruct n as [s | s | name attrs contents];
      try (cbn [matches is_anchor]; apply IH).
    cbn [matches is_anchor name_in existsb]. rewrite orb_false_r.
    destruct (str_eqb name (lit "a")) eqn:Ea; cbn [andb]; [|apply IH].
    cbn [filter]. unfold linkable at 1. unfold anchor_href at 1.
    destruct (get_attr attrs (lit "href")) as [v|] eqn:Eh.
    + cbn [fold_left]. unfold add_link at 2. rewrite Eh.
      fold (anchor_text (Tag name attrs contents)).
      destruct (truthy (anchor_text (Tag name attrs contents)) && truthy v)
        eqn:Et.
      * rewrite IH. cbn [map].
        replace (link_entry (Tag name attrs contents))
          with (anchor_text (Tag name attrs contents) ++ lit ": " ++ v).
        2:{ unfold link_entry, anchor_href. rewrite Eh. reflexivity. }
        rewrite <- app_assoc. reflexivity.
      * apply IH.
    + rewrite andb_false_r. apply IH.
Qed.

Lemma collect_links_links_of (sp : soup) : collect_links sp = links_of sp.
Proof.
  unfold collect_links, find_all, links_of, anchors.
  rewrite fold_add_link. reflexivity.
Qed.

End Links.

(** C8 (as amended). With the check box off no link is returned. With it
    on, the links are exactly the anchors left once the [script],
    [style], [nav], [header] and [footer] elements are removed that have a
    non-empty trimmed text and a non-empty [href], each as
    ["<text>: <href>"], in document order. *)
Theorem links_returned (sp : soup) :
  snd (clean_and_collect false sp) = []
  /\ snd (clean_and_collect true sp) = links_of (decompose_all REMOVED sp).
Proof.
  split; [reflexivity|].
  unfold clean_and_collect. cbn [snd]. apply collect_links_links_of.
Qed.

(** C8 as stated fails on [<nav><a href="/x">Home</a></nav>]: the anchor
    has a text and an address, and no link is returned. *)
Lemma links_as_stated_counterexample :
  let sp := HtmlParser.parse (lit "<nav><a href='/x'>Home</a></nav>") in
  links_of sp = [lit "Home: /x"]
  /\ snd (clean_and_collect true sp) = []
  /\ snd (clean_and_collect true sp) <> links_of sp.
Proof.
  repeat split; try (vm_compute; reflexivity).
  vm_compute. discriminate.
Qed.

(* ================================================================= *)
(** ** The fixture *)

(** C1 (as amended). On the fixture, with the check box off, the text is
    ["TitlePrice: $10 Price: $20"] and there is no link: [get_text] puts
    nothing between the heading and the paragraph. *)
Theorem fixture_extraction :
  clean_and_collect false (HtmlParser.parse FIXTURE)
  = (lit "TitlePrice: $10 Price: $20", []).
Proof. vm_compute. reflexivity. Qed.

(** C1 as stated fails: the text is not ["Title Price: $10 Price: $20"]. *)
Lemma fixture_extraction_counterexample :
  clean_and_collect false (HtmlParser.parse FIXTURE)
  <> (lit "Title Price: $10 Price: $20", []).
Proof. vm_compute. discriminate. Qed.

(** A whole run on the fixture, when the generation answers. *)
Example fixture_run :
  start_scraping
    (example_world (page 200 "OK" FIXTURE) (inl (lit "$10, $20")))
    (example_widgets false)
  = ([Progress 0; StatusEmpty; StatusText FETCHING; Progress 25;
      HttpGet (lit "https://example.com") USER_AGENT 10;
      StatusText PROCESSING; Progress 75;
      Generate (lit "secret") (lit "gemini-1.5-flash")
        (extraction_prompt (example_widgets false)
           (lit "TitlePrice: $10 Price: $20") []
           (lit "Extract all product names and prices"))
        (1 # 10) 2048;
      Progress 100; StatusText COMPLETE; StSuccess SUCCESS;
      ShowResults (lit "$10, $20") 26 0 (lit "gemini-1.5-flash") false;
      Sleep 1; StatusEmpty; ProgressEmpty], inl tt).
Proof. vm_compute. reflexivity. Qed.

(* ================================================================= *)
(** ** The prompt *)

Section Prompt.

Lemma slice_to_nonneg (s : str) (k : Z) :
  (0 <= k)%Z -> slice_to s k = firstn (Z.to_nat k) s.
Proof.
  intros H. unfold slice_to.
  destruct (k <? 0)%Z eqn:E; [apply Z.ltb_lt in E; lia | reflexivity].
Qed.

Lemma firstn_prefix (A : Type) (n : nat) (l : list A) :
  exists rest, l = firstn n l ++ rest.
Proof. exists (skipn n l). symmetry. apply firstn_skipn. Qed.

Lemma extract_with_gemini_run (W : World) (G : Widgets) (t : str)
  (links : list str) (request key model : str) (temp : Q) :
  extract_with_gemini W G (Some t) links request key model temp
  = ([Generate key model (extraction_prompt G t links request) temp 2048],
     inl match generate_content W key model
                 (extraction_prompt G t links request) temp 2048 with
         | inl answer => (Some answer, None)
         | inr (RequestException msg) | inr (OtherException msg) =>
             (None, Some (GEMINI_ERROR ++ msg))
         end).
Proof.
  unfold extract_with_gemini, try_except, bind, call, ret.
  destruct (generate_content W key model
              (extraction_prompt G t links request) temp 2048)
    as [answer | [msg | msg]]; reflexivity.
Qed.

End Prompt.

(** C2. For a budget from 1000 to 10000 the prompt holds, after the fixed
    head, the request and the content label, the first [min k (len t)]
    characters of the text; then, when links are wanted and there are
    some, the line "Links found:" and the first 20 links, whole, one per
    line; then the fixed tail. The prompt sent is this one. *)
Theorem prompt_embeds_budgeted_text (W : World) (G : Widgets) (t : str)
  (links : list str) (request key model : str) (temp : Q) :
  (1000 <= max_chars G <= 10000)%Z ->
  let segment := firstn (Z.to_nat (max_chars G)) t in
  let links_text :=
    if include_links G && truthy links
    then NL ++ NL ++ lit "Links found:" ++ NL ++ join NL (firstn 20 links)
    else [] in
  extraction_prompt G t links request
  = PROMPT_HEAD ++ request ++ PROMPT_MIDDLE
    ++ segment ++ links_text ++ PROMPT_TAIL
  /\ Z.of_nat (List.length segment)
     = Z.min (max_chars G) (Z.of_nat (List.length t))
  /\ (exists rest, t = segment ++ rest)
  /\ trace (extract_with_gemini W G (Some t) links request key model temp)
     = [Generate key model (extraction_prompt G t links request) temp 2048].
Proof.
  intros Hk. cbv zeta. repeat split.
  - unfold extraction_prompt, content_to_analyze.
    rewrite slice_to_nonneg by lia.
    rewrite (andb_comm (include_links G)).
    destruct (truthy links && include_links G).
    + rewrite <- !app_assoc. reflexivity.
    + reflexivity.
  - rewrite length_firstn. lia.
  - apply firstn_prefix.
  - rewrite extract_with_gemini_run. reflexivity.
Qed.

Lemma prompt_embeds_budgeted_text_witness :
  let G := mkWidgets (lit "secret") (lit "prices") (lit "https://example.com")
             (lit "gemini-1.5-flash") 1000 true (1 # 10) in
  let W := example_world (page 200 "OK" FIXTURE) (inl (lit "$10, $20")) in
  (1000 <= max_chars G <= 10000)%Z
  /\ extraction_prompt G (lit "TitlePrice: $10 Price: $20")
       [lit "a: /a"; lit "b: /b"] (lit "prices")
     = PROMPT_HEAD ++ lit "prices" ++ PROMPT_MIDDLE
       ++ lit "TitlePrice: $10 Price: $20"
       ++ (NL ++ NL ++ lit "Links found:" ++ NL
           ++ lit "a: /a" ++ NL ++ lit "b: /b")
       ++ PROMPT_TAIL.
Proof.
  cbv zeta. split; [simpl; lia|].
  refine (proj1 (prompt_embeds_budgeted_text
                   (example_world (page 200 "OK" FIXTURE)
                      (inl (lit "$10, $20")))
                   (mkWidgets _ _ _ _ 1000 true (1 # 10))
                   (lit "TitlePrice: $10 Price: $20")
                   [lit "a: /a"; lit "b: /b"] (lit "prices")
                   (lit "secret") (lit "gemini-1.5-flash") (1 # 10) _)).
  simpl; lia.
Defined.

(* ================================================================= *)
(** ** The fetch *)

Section Fetch.

Variables (W : World) (G : Widgets) (page_url : str).

Lemma raise_for_status_cases (r : Response) :
  raise_for_status r
  = if ((400 <=? status_code r) && (status_code r <? 500))%Z
    then ([], inr (RequestException
                     (http_error_message r (lit " Client Error: "))))
    else if ((500 <=? status_code r) && (status_code r <? 600))%Z
    then ([], inr (RequestException
                     (http_error_message r (lit " Server Error: "))))
    else ([], inl tt).
Proof. reflexivity. Qed.

(** [scrape_website] always returns, after one request. *)
Lemma scrape_website_returns :
  exists x : scraped,
    scrape_website W G page_url = ([HttpGet page_url USER_AGENT 10], inl x).
Proof.
  unfold scrape_website, try_except, bind, call.
  destruct (requests_get W page_url USER_AGENT 10) as [r | [msg | msg]];
    try (eexists; reflexivity).
  rewrite raise_for_status_cases.
  destruct ((400 <=? status_code r) && (status_code r <? 500))%Z;
    [eexists; reflexivity|].
  destruct ((500 <=? status_code r) && (status_code r <? 600))%Z;
    [eexists; reflexivity|].
  destruct (BeautifulSoup W (content r)) as [sp | [msg | msg]];
    eexists; reflexivity.
Qed.


(** An error returned by [scrape_website] is never the empty string. *)
Lemma scrape_website_error_truthy (text : option str) (links : list str)
  (err : str) :
  value (scrape_website W G page_url) = inl (text, links, Some err) ->
  truthy err = true.
Proof.
  unfold scrape_website, try_except, bind, call, value.
  destruct (requests_get W page_url USER_AGENT 10) as [r | [msg | msg]];
    try (cbn; intros H; inversion H; reflexivity).
  rewrite raise_for_status_cases.
  destruct ((400 <=? status_code r) && (status_code r <? 500))%Z;
    [cbn; intros H; inversion H; reflexivity|].
  destruct ((500 <=? status_code r) && (status_code r <? 600))%Z;
    [cbn; intros H; inversion H; reflexivity|].
  destruct (BeautifulSoup W (content r)) as [sp | [msg | msg]];
    cbn; intros H; inversion H; reflexivity.
Qed.

End Fetch.




(* ================================================================= *)
(** ** The run of the button *)

Section Run.

Variables (W : World) (G : Widgets).

Hypothesis prompt_given : truthy (prompt G) = true.
Hypothesis url_given : truthy (source_url G) = true.
Hypothesis key_given : truthy (api_key G) = true.

Lemma run_after_fetch_error (text : option str) (links : list str)
  (err : str) :
  value (scrape_website W G (source_url G)) = inl (text, links, Some err) ->
  start_scraping W G
  = ([Progress 0; StatusEmpty; StatusText FETCHING; Progress 25;
      HttpGet (source_url G) USER_AGENT 10;
      StError (CROSS ++ lit " " ++ err);
      Sleep 1; StatusEmpty; ProgressEmpty], inl tt).
Proof.
  intros Hv. pose proof (scrape_website_error_truthy _ _ _ Hv) as Herr.
  destruct (scrape_website_returns W G (source_url G)) as [x Hx].
  rewrite Hx in Hv. cbn in Hv. inversion Hv; subst x.
  unfold start_scraping. cbn [forallb].
  rewrite prompt_given, url_given, key_given. cbn [andb negb].
  unfold bind, emit. rewrite Hx. cbn [truthy_opt]. rewrite Herr.
  reflexivity.
Qed.

Lemma run_after_generation_error (t : str) (links : list str) (e : exn) :
  value (scrape_website W G (source_url G)) = inl (Some t, links, None) ->
  generate_content W (api_key G) (model_choice G)
    (extraction_prompt G t links (prompt G)) (temperature G) 2048 = inr e ->
  start_scraping W G
  = ([Progress 0; StatusEmpty; StatusText FETCHING; Progress 25;
      HttpGet (source_url G) USER_AGENT 10;
      StatusText PROCESSING; Progress 75;
      Generate (api_key G) (model_choice G)
        (extraction_prompt G t links (prompt G)) (temperature G) 2048;
      Progress 100; StatusText COMPLETE;
      StError (CROSS ++ lit " " ++ GEMINI_ERROR ++ exn_message e)]
     ++ match error_hint (GEMINI_ERROR ++ exn_message e) with
        | Some hint => [StInfo hint]
        | None => []
        end
     ++ [Sleep 1; StatusEmpty; ProgressEmpty], inl tt).
Proof.
  intros Hv Hg.
  destruct (scrape_website_returns W G (source_url G)) as [x Hx].
  rewrite Hx in Hv. cbn in Hv. inversion Hv; subst x.
  unfold start_scraping. cbn [forallb].
  rewrite prompt_given, url_given, key_given. cbn [andb negb].
  unfold bind at 1 2 3 4 5. unfold emit at 1 2 3 4. rewrite Hx.
  cbn [truthy_opt].
  unfold bind at 2 3 4. unfold emit at 1 2.
  rewrite extract_with_gemini_run, Hg.
  replace (match e with
           | RequestException msg | OtherException msg =>
               (@None str, Some (GEMINI_ERROR ++ msg))
           end)
    with (@None str, Some (GEMINI_ERROR ++ exn_message e))
    by (destruct e; reflexivity).
  unfold show_hint.
  destruct (error_hint (GEMINI_ERROR ++ exn_message e)); reflexivity.
Qed.

End Run.

(** C9. When the three inputs are given and [scrape_website] returns an
    error, the run shows that error and stops: its trace has the one GET
    and no call to the generation service. *)
Theorem fetch_error_halts (W : World) (G : Widgets) (text : option str)
  (links : list str) (err : str) :
  truthy (prompt G) = true ->
  truthy (source_url G) = true ->
  truthy (api_key G) = true ->
  value (scrape_website W G (source_url G)) = inl (text, links, Some err) ->
  trace (start_scraping W G)
  = [Progress 0; StatusEmpty; StatusText FETCHING; Progress 25;
     HttpGet (source_url G) USER_AGENT 10;
     StError (CROSS ++ lit " " ++ err);
     Sleep 1; StatusEmpty; ProgressEmpty]
  /\ existsb is_generate (trace (start_scraping W G)) = false.
Proof.
  intros Hp Hu Hk Hv.
  rewrite (@run_after_fetch_error W G Hp Hu Hk text links err Hv).
  split; reflexivity.
Qed.

Lemma fetch_error_halts_witness :
  let W := example_world
             (inr (RequestException (lit "Max retries exceeded with url: /")))
             (inl (lit "unused")) in
  let G := example_widgets false in
  existsb is_generate (trace (start_scraping W G)) = false.
Proof.
  cbv zeta.
  refine (proj2 (@fetch_error_halts
                   (example_world
                      (inr (RequestException
                              (lit "Max retries exceeded with url: /")))
                      (inl (lit "unused")))
                   (example_widgets false) None []
                   (lit "Failed to fetch webpage: Max retries exceeded with url: /")
                   eq_refl eq_refl eq_refl eq_refl)).
Defined.

Section Hints.

Lemma startswith_app (s m n : str) :
  startswith s n = true -> startswith (s ++ m) n = true.
Proof.
  revert s. induction n as [|x n IH]; intros s H; [reflexivity|].
  destruct s as [|c s]; [discriminate|].
  simpl in *. apply andb_true_iff in H. destruct H as [-> H].
  apply IH. exact H.
Qed.

Lemma contains_cons (c : char) (hay needle : str) :
  contains (c :: hay) needle
  = startswith (c :: hay) needle || contains hay needle.
Proof. reflexivity. Qed.

Lemma contains_app_l (p m n : str) :
  contains p n = true -> contains (p ++ m) n = true.
Proof.
  induction p as [|c p IH].
  - destruct n as [|x n]; [destruct m; reflexivity | discriminate].
  - change ((c :: p) ++ m) with (c :: (p ++ m)). rewrite !contains_cons.
    intros H. apply orb_true_iff in H. apply orb_true_iff.
    destruct H as [H | H].
    + left. exact (startswith_app (c :: p) m n H).
    + right. apply IH. exact H.
Qed.

Lemma contains_app_r (p m n : str) :
  contains m n = true -> contains (p ++ m) n = true.
Proof.
  intros H. induction p as [|c p IH]; [exact H|].
  change ((c :: p) ++ m) with (c :: (p ++ m)). rewrite contains_cons, IH.
  apply orb_true_r.
Qed.

Example lower_examples :
  lower (lit "API Key") = lit "api key"
  /\ lower [8490%N] = lit "k"
  /\ lower [CAPITAL_I_WITH_DOT] = [105%N; 775%N]
  /\ lower [913%N; CAPITAL_SIGMA] = [945%N; FINAL_SIGMA]
  /\ lower [CAPITAL_SIGMA; 913%N] = [SMALL_SIGMA; 945%N].
Proof. vm_compute. repeat split. Qed.

(** Lower case goes through a prefix that has no capital sigma, one
    character at a time. *)
Lemma lower_from_app (p m : str) (behind : bool) :
  no_capital_sigma p = true ->
  lower_from behind (p ++ m)
  = flat_map to_lower_full p
    ++ lower_from (cased_behind_after behind p) m.
Proof.
  revert behind. induction p as [|c p IH]; intros behind H; [reflexivity|].
  cbn [no_capital_sigma forallb] in H. apply andb_true_iff in H.
  destruct H as [Hc Hp]. apply negb_true_iff in Hc.
  cbn [app lower_from flat_map cased_behind_after fold_left].
  rewrite Hc, <- app_assoc. f_equal. apply IH. exact Hp.
Qed.

(** The prefix of the error has its own lower case, whatever follows. *)
Lemma lower_gemini_error (msg : str) :
  lower (GEMINI_ERROR ++ msg) = GEMINI_ERROR_LOWER ++ lower msg.
Proof.
  unfold lower. rewrite lower_from_app by (vm_compute; reflexivity).
  replace (flat_map to_lower_full GEMINI_ERROR) with GEMINI_ERROR_LOWER
    by (vm_compute; reflexivity).
  replace (cased_behind_after false GEMINI_ERROR) with false
    by (vm_compute; reflexivity).
  reflexivity.
Qed.

(** The prefix of the error message always brings "api". *)
Lemma gemini_error_has_api (msg : str) :
  contains (lower (GEMINI_ERROR ++ msg)) (lit "api") = true.
Proof.
  rewrite lower_gemini_error. apply contains_app_l. vm_compute. reflexivity.
Qed.

Lemma error_hint_after_prefix (msg : str) :
  error_hint (GEMINI_ERROR ++ msg)
  = if contains (lower (GEMINI_ERROR ++ msg)) (lit "key")
    then Some KEY_HINT
    else if contains (lower (GEMINI_ERROR ++ msg)) (lit "quota")
    then Some QUOTA_HINT
    else None.
Proof. unfold error_hint. rewrite gemini_error_has_api. reflexivity. Qed.

Lemma key_in_message (msg : str) :
  contains (lower msg) (lit "key") = true ->
  contains (lower (GEMINI_ERROR ++ msg)) (lit "key") = true.
Proof.
  intros H. rewrite lower_gemini_error. apply contains_app_r. exact H.
Qed.

Lemma hints_differ : KEY_HINT <> QUOTA_HINT.
Proof. vm_compute. discriminate. Qed.

End Hints.

(** C3. When the generation fails and the message of the exception has
    "key" in it, in any case of the letters, the run shows the error
    "Gemini API error: " with the message, and right after it the hint
    about the API key. *)
Theorem key_hint_shown (W : World) (G : Widgets) (t : str)
  (links : list str) (e : exn) :
  truthy (prompt G) = true ->
  truthy (source_url G) = true ->
  truthy (api_key G) = true ->
  value (scrape_website W G (source_url G)) = inl (Some t, links, None) ->
  generate_content W (api_key G) (model_choice G)
    (extraction_prompt G t links (prompt G)) (temperature G) 2048 = inr e ->
  contains (lower (exn_message e)) (lit "key") = true ->
  trace (start_scraping W G)
  = [Progress 0; StatusEmpty; StatusText FETCHING; Progress 25;
     HttpGet (source_url G) USER_AGENT 10;
     StatusText PROCESSING; Progress 75;
     Generate (api_key G) (model_choice G)
       (extraction_prompt G t links (prompt G)) (temperature G) 2048;
     Progress 100; StatusText COMPLETE;
     StError (CROSS ++ lit " " ++ GEMINI_ERROR ++ exn_message e);
     StInfo KEY_HINT;
     Sleep 1; StatusEmpty; ProgressEmpty].
Proof.
  intros Hp Hu Hk Hv Hg Hkey.
  rewrite (@run_after_generation_error W G Hp Hu Hk t links e Hv Hg).
  rewrite error_hint_after_prefix, (key_in_message _ Hkey). reflexivity.
Qed.

Lemma key_hint_shown_witness :
  let W := example_world (page 200 "OK" FIXTURE)
             (inr (OtherException (lit "400 API_KEY_INVALID"))) in
  let G := example_widgets false in
  contains (lower (lit "400 API_KEY_INVALID")) (lit "key") = true
  /\ In (StInfo KEY_HINT) (trace (start_scraping W G)).
Proof.
  cbv zeta. split; [reflexivity|].
  rewrite (@key_hint_shown
             (example_world (page 200 "OK" FIXTURE)
                (inr (OtherException (lit "400 API_KEY_INVALID"))))
             (example_widgets false)
             (lit "TitlePrice: $10 Price: $20") []
             (OtherException (lit "400 API_KEY_INVALID"))
             eq_refl eq_refl eq_refl eq_refl eq_refl eq_refl).
  simpl. tauto.
Defined.

Section Shown.

(** A hint is in the trace when it is among its [st.info] events. *)
Lemma in_info (hint : str) (t : list event) :
  In (StInfo hint) t <-> In (StInfo hint) (filter is_info t).
Proof.
  rewrite filter_In. split; [intros H; split; [exact H | reflexivity]|].
  intros [H _]. exact H.
Qed.

Lemma in_one_hint (shown hint : str) :
  In (StInfo hint) [StInfo shown] <-> shown = hint.
Proof.
  split.
  - intros [H | []]. congruence.
  - intros ->. left. reflexivity.
Qed.

End Shown.

(** C10. Every error message of [extract_with_gemini] begins with
    "Gemini API error: ". When the generation fails, the run shows the
    error with that prefix and then at most one hint: the key hint
    exactly when the lower-case form of the message has "key" in it, and
    the quota hint exactly when it has "quota" and not "key"; a message
    with both gets the key hint only. *)
Theorem hint_selection (W : World) (G : Widgets) (t : str)
  (links : list str) (e : exn) :
  truthy (prompt G) = true ->
  truthy (source_url G) = true ->
  truthy (api_key G) = true ->
  value (scrape_website W G (source_url G)) = inl (Some t, links, None) ->
  generate_content W (api_key G) (model_choice G)
    (extraction_prompt G t links (prompt G)) (temperature G) 2048 = inr e ->
  let gemini_error := GEMINI_ERROR ++ exn_message e in
  let has (word : str) := contains (lower gemini_error) word in
  let shown (hint : str) := In (StInfo hint) (trace (start_scraping W G)) in
  (forall (text : option str) (found : list str) (request key model : str)
          (temp : Q),
      exists result error,
        value (extract_with_gemini W G text found request key model temp)
        = inl (result, error)
        /\ match error with
           | Some message => exists raw, message = GEMINI_ERROR ++ raw
           | None => True
           end)
  /\ value (extract_with_gemini W G (Some t) links (prompt G) (api_key G)
              (model_choice G) (temperature G))
     = inl (None, Some gemini_error)
  /\ trace (start_scraping W G)
     = FETCH_EVENTS G ++ GENERATE_EVENTS G t links
       ++ [StError (CROSS ++ lit " " ++ gemini_error)]
       ++ (if has (lit "key") then [StInfo KEY_HINT]
           else if has (lit "quota") then [StInfo QUOTA_HINT]
           else [])
       ++ CLEAN_UP
  /\ (shown KEY_HINT <-> has (lit "key") = true)
  /\ (shown QUOTA_HINT
      <-> has (lit "quota") = true /\ has (lit "key") = false).
Proof.
  intros Hp Hu Hk Hv Hg. cbv zeta.
  assert (Htrace :
    trace (start_scraping W G)
    = FETCH_EVENTS G ++ GENERATE_EVENTS G t links
      ++ [StError (CROSS ++ lit " " ++ GEMINI_ERROR ++ exn_message e)]
      ++ (if contains (lower (GEMINI_ERROR ++ exn_message e)) (lit "key")
          then [StInfo KEY_HINT]
          else if contains (lower (GEMINI_ERROR ++ exn_message e))
                    (lit "quota")
          then [StInfo QUOTA_HINT]
          else [])
      ++ CLEAN_UP).
  { rewrite (@run_after_generation_error W G Hp Hu Hk t links e Hv Hg).
    rewrite error_hint_after_prefix.
    destruct (contains (lower (GEMINI_ERROR ++ exn_message e)) (lit "key"));
      [reflexivity|].
    destruct (contains (lower (GEMINI_ERROR ++ exn_message e))
                (lit "quota")); reflexivity. }
  assert (Hinfo :
    filter is_info (trace (start_scraping W G))
    = if contains (lower (GEMINI_ERROR ++ exn_message e)) (lit "key")
      then [StInfo KEY_HINT]
      else if contains (lower (GEMINI_ERROR ++ exn_message e)) (lit "quota")
      then [StInfo QUOTA_HINT]
      else []).
  { rewrite Htrace, !filter_app.
    destruct (contains (lower (GEMINI_ERROR ++ exn_message e)) (lit "key"));
      [reflexivity|].
    destruct (contains (lower (GEMINI_ERROR ++ exn_message e))
                (lit "quota")); reflexivity. }
  split; [|split; [|split; [exact Htrace|]]].
  - intros [text|] found request key model temp.
    + rewrite extract_with_gemini_run. cbn [value snd].
      destruct (generate_content W key model
                  (extraction_prompt G text found request) temp 2048)
        as [answer | [raw | raw]]; do 2 eexists; split;
        try reflexivity; cbn; eauto.
    + do 2 eexists. split; [reflexivity|]. cbn. eauto.
  - rewrite extract_with_gemini_run, Hg. destruct e; reflexivity.
  - rewrite (in_info KEY_HINT), (in_info QUOTA_HINT), Hinfo.
    destruct (contains (lower (GEMINI_ERROR ++ exn_message e)) (lit "key"));
      [|destruct (contains (lower (GEMINI_ERROR ++ exn_message e))
                    (lit "quota"))].
    + rewrite !in_one_hint. split; split.
      * reflexivity.
      * reflexivity.
      * intros H. destruct (hints_differ H).
      * intros [_ H]. discriminate H.
    + rewrite !in_one_hint. split; split.
      * intros H. destruct (hints_differ (eq_sym H)).
      * discriminate.
      * split; reflexivity.
      * reflexivity.
    + split; split.
      * intros [].
      * discriminate.
      * intros [].
      * intros [H _]. discriminate H.
Qed.

Lemma hint_selection_witness :
  let raw := lit "quota; check your API " ++ [8490%N] ++ lit "ey" in
  let W := example_world (page 200 "OK" FIXTURE)
             (inr (OtherException raw)) in
  let G := example_widgets false in
  contains (lower (GEMINI_ERROR ++ raw)) (lit "quota") = true
  /\ In (StInfo KEY_HINT) (trace (start_scraping W G))
  /\ ~ In (StInfo QUOTA_HINT) (trace (start_scraping W G)).
Proof.
  cbv zeta.
  destruct (@hint_selection
              (example_world (page 200 "OK" FIXTURE)
                 (inr (OtherException
                         (lit "quota; check your API " ++ [8490%N]
                          ++ lit "ey"))))
              (example_widgets false)
              (lit "TitlePrice: $10 Price: $20") []
              (OtherException
                 (lit "quota; check your API " ++ [8490%N] ++ lit "ey"))
              eq_refl eq_refl eq_refl eq_refl eq_refl)
    as (_ & _ & _ & Hkey & Hquota).
  split; [vm_compute; reflexivity|]. split.
  - apply Hkey. vm_compute. reflexivity.
  - intros H. apply Hquota in H. destruct H as [_ H].
    vm_compute in H. discriminate H.
Defined.

(* ================================================================= *)
(** ** The missing fields *)

Section Missing.

Lemma missing_fields_names (G : Widgets) :
  missing_fields G
  = names_of (negb (truthy (prompt G))) (negb (truthy (source_url G)))
      (negb (truthy (api_key G))).
Proof.
  unfold missing_fields, names_of.
  destruct (negb (truthy (prompt G))), (negb (truthy (source_url G))),
    (negb (truthy (api_key G))); reflexivity.
Qed.

Lemma names_in_message (no_prompt no_url no_key : bool) :
  let message :=
    PLEASE_PROVIDE ++ join (lit ", ") (names_of no_prompt no_url no_key) in
  contains message (lit "extraction prompt") = no_prompt
  /\ contains message (lit "source URL") = no_url
  /\ contains message (lit "API key") = no_key.
Proof. destruct no_prompt, no_url, no_key; vm_compute; auto. Qed.

Lemma not_truthy_nil (s : str) : negb (truthy s) = true <-> s = [].
Proof. destruct s; simpl; split; congruence. Qed.

Lemma start_scraping_missing (W : World) (G : Widgets) :
  prompt G = [] \/ source_url G = [] \/ api_key G = [] ->
  start_scraping W G = ([StError (missing_message G)], inl tt).
Proof.
  intros H. unfold start_scraping. cbn [forallb].
  replace (truthy (prompt G) && (truthy (source_url G)
                                 && (truthy (api_key G) && true)))
    with false; [reflexivity|].
  destruct H as [-> | [-> | ->]]; cbn [truthy andb];
    rewrite ?andb_false_r; reflexivity.
Qed.

End Missing.

(** C4. When one of the extraction prompt, the source URL and the API key
    is empty, the run is one error message and nothing else, so no GET
    and no call to the generation service; the message is
    "Please provide: " with the names of the missing fields, and the
    name of a field is in it exactly when that field is empty. *)
Theorem missing_inputs_reported (W : World) (G : Widgets) :
  prompt G = [] \/ source_url G = [] \/ api_key G = [] ->
  trace (start_scraping W G) = [StError (missing_message G)]
  /\ existsb is_network_call (trace (start_scraping W G)) = false
  /\ (contains (missing_message G) (lit "extraction prompt") = true
      <-> prompt G = [])
  /\ (contains (missing_message G) (lit "source URL") = true
      <-> source_url G = [])
  /\ (contains (missing_message G) (lit "API key") = true
      <-> api_key G = []).
Proof.
  intros H. rewrite (@start_scraping_missing W G H).
  split; [reflexivity|]. split; [reflexivity|].
  unfold missing_message. rewrite missing_fields_names.
  destruct (names_in_message (negb (truthy (prompt G)))
              (negb (truthy (source_url G))) (negb (truthy (api_key G))))
    as (Hp & Hu & Hk).
  cbv zeta in Hp, Hu, Hk. rewrite Hp, Hu, Hk.
  repeat split; apply not_truthy_nil.
Qed.

Lemma missing_inputs_reported_witness :
  let W := example_world (page 200 "OK" FIXTURE) (inl (lit "unused")) in
  let G := mkWidgets [] (lit "Extract all product names and prices") []
             (lit "gemini-1.5-flash") 5000 false (1 # 10) in
  trace (start_scraping W G)
  = [StError (CROSS ++ lit " Please provide: source URL, API key")].
Proof.
  cbv zeta.
  refine (proj1 (@missing_inputs_reported
                   (example_world (page 200 "OK" FIXTURE)
                      (inl (lit "unused")))
                   (mkWidgets [] (lit "Extract all product names and prices")
                      [] (lit "gemini-1.5-flash") 5000 false (1 # 10))
                   _)).
  right. left. reflexivity.
Defined.

(* ================================================================= *)
(** ** The clean-up changes white space only *)

Section Ink.

Lemma islinebreak_isspace (c : char) :
  islinebreak c = true -> isspace c = true.
Proof.
  unfold islinebreak, isspace.
  rewrite !orb_true_iff, !andb_true_iff, !N.leb_le, !N.eqb_eq. lia.
Qed.

Lemma ink_space (c : char) (s : str) :
  isspace c = true -> ink (c :: s) = ink s.
Proof. intros H. unfold ink. cbn [filter]. rewrite H. reflexivity. Qed.

Lemma ink_not_space (c : char) (s : str) :
  isspace c = false -> ink (c :: s) = c :: ink s.
Proof. intros H. unfold ink. cbn [filter]. rewrite H. reflexivity. Qed.

Lemma ink_app (a b : str) : ink (a ++ b) = ink a ++ ink b.
Proof. apply filter_app. Qed.

Lemma ink_lstrip (s : str) : ink (lstrip s) = ink s.
Proof.
  induction s as [|c s IH]; [reflexivity|].
  simpl lstrip. destruct (isspace c) eqn:E; [|reflexivity].
  rewrite ink_space by exact E. exact IH.
Qed.

Lemma ink_rstrip (s : str) : ink (rstrip s) = ink s.
Proof.
  induction s as [|c s IH]; [reflexivity|].
  cbn [rstrip]. destruct (rstrip s) as [|k kept].
  - destruct (isspace c) eqn:E.
    + rewrite ink_space by exact E. exact IH.
    + rewrite !ink_not_space by exact E. rewrite <- IH. reflexivity.
  - destruct (isspace c) eqn:E.
    + rewrite !(@ink_space c) by exact E. exact IH.
    + rewrite !(@ink_not_space c) by exact E. rewrite IH. reflexivity.
Qed.

Lemma ink_strip (s : str) : ink (strip s) = ink s.
Proof. unfold strip. rewrite ink_rstrip. apply ink_lstrip. Qed.

Lemma ink_cons_head (c : char) (pieces : list str) :
  flat_map ink (cons_head c pieces) = ink [c] ++ flat_map ink pieces.
Proof.
  destruct pieces as [|p ps]; cbn [cons_head flat_map].
  - reflexivity.
  - change (c :: p) with ([c] ++ p). rewrite ink_app, app_assoc.
    reflexivity.
Qed.

Lemma ink_splitlines (s : str) : flat_map ink (splitlines s) = ink s.
Proof.
  induction s as [|c | c c' s IHs IHc] using list_ind2.
  - reflexivity.
  - rewrite splitlines_cons. destruct (islinebreak c) eqn:E.
    + apply islinebreak_isspace in E. rewrite ink_space by exact E.
      reflexivity.
    + rewrite ink_cons_head. apply app_nil_r.
  - rewrite splitlines_cons. destruct (islinebreak c) eqn:E.
    + apply islinebreak_isspace in E. rewrite ink_space by exact E.
      destruct (char_eqb c CR && char_eqb c' LF) eqn:Ecc.
      * apply andb_true_iff in Ecc. destruct Ecc as [_ Ec'].
        apply char_eqb_eq in Ec'. subst c'.
        rewrite ink_space by reflexivity. exact IHs.
      * exact IHc.
    + rewrite ink_cons_head, IHc. symmetry.
      exact (ink_app [c] (c' :: s)).
Qed.

Lemma ink_split_two (s : str) : flat_map ink (split s TWO_SPACES) = ink s.
Proof.
  induction s as [|c | c c' s IHs IHc] using list_ind2.
  - reflexivity.
  - rewrite split_two_cons. cbn [flat_map]. apply app_nil_r.
  - rewrite split_two_cons.
    destruct (char_eqb c SPACE && char_eqb c' SPACE) eqn:Ecc.
    + apply andb_true_iff in Ecc. destruct Ecc as [Ec Ec'].
      apply char_eqb_eq in Ec, Ec'. subst c c'.
      rewrite !ink_space by reflexivity. exact IHs.
    + rewrite ink_cons_head, IHc. symmetry.
      exact (ink_app [c] (c' :: s)).
Qed.

Lemma ink_join_space (pieces : list str) :
  ink (join [SPACE] pieces) = flat_map ink pieces.
Proof.
  induction pieces as [|p | p q r _ IH] using list_ind2.
  - reflexivity.
  - cbn [join flat_map]. symmetry. apply app_nil_r.
  - rewrite join_cons2, !ink_app, IH. reflexivity.
Qed.

Lemma ink_filter_truthy (pieces : list str) :
  flat_map ink (filter (@truthy char) pieces) = flat_map ink pieces.
Proof.
  induction pieces as [|p ps IH]; [reflexivity|].
  cbn [filter]. destruct p as [|c p]; cbn [truthy flat_map].
  - exact IH.
  - rewrite IH. reflexivity.
Qed.

Lemma ink_map_strip (pieces : list str) :
  flat_map ink (map strip pieces) = flat_map ink pieces.
Proof.
  induction pieces as [|p ps IH]; [reflexivity|].
  cbn [map flat_map]. rewrite ink_strip, IH. reflexivity.
Qed.

Lemma ink_chunks (lines : list str) :
  flat_map ink
    (flat_map (fun line => map strip (split line (lit "  ")))
       (map strip lines))
  = flat_map ink lines.
Proof.
  induction lines as [|l ls IH]; [reflexivity|].
  cbn [map flat_map]. rewrite flat_map_app, IH, ink_map_strip.
  change (lit "  ") with TWO_SPACES. rewrite ink_split_two, ink_strip.
  reflexivity.
Qed.

Lemma ink_clean_text (t : str) : ink (clean_text t) = ink t.
Proof.
  rewrite clean_text_chunks. unfold chunks_of.
  rewrite ink_join_space, ink_filter_truthy, ink_chunks.
  apply ink_splitlines.
Qed.

Lemma ink_nil_all_space (s : str) :
  ink s = [] <-> forallb isspace s = true.
Proof.
  induction s as [|c s IH]; [split; reflexivity|].
  cbn [forallb]. destruct (isspace c) eqn:E.
  - rewrite ink_space by exact E. exact IH.
  - rewrite ink_not_space by exact E. split; discriminate.
Qed.

Lemma tidy_ink (s : str) : tidy s -> ink s <> [].
Proof.
  intros (Hne & Hfirst & _). destruct s as [|c s]; [congruence|].
  cbn [first_is] in Hfirst. rewrite ink_not_space by exact Hfirst.
  discriminate.
Qed.

Lemma split_two_whole (s : str) :
  double_space s = false -> split s TWO_SPACES = [s].
Proof.
  induction s as [|c | c c' s _ IH] using list_ind2; intros H.
  - reflexivity.
  - rewrite split_two_cons. reflexivity.
  - rewrite split_two_cons.
    change (double_space (c :: c' :: s))
      with ((char_eqb c SPACE && char_eqb c' SPACE)
            || double_space (c' :: s)) in H.
    apply orb_false_iff in H. destruct H as [-> H].
    rewrite (IH H). reflexivity.
Qed.

Lemma clean_text_of_tidy (s : str) :
  tidy s -> Forall not_linebreak s -> clean_text s = s.
Proof.
  intros Ht Hl. pose proof Ht as (Hne & _ & _ & Hds).
  rewrite clean_text_chunks. unfold chunks_of.
  rewrite (splitlines_one_line Hl Hne). cbn [map flat_map].
  rewrite (tidy_strip Ht). change (lit "  ") with TWO_SPACES.
  rewrite (split_two_whole _ Hds). cbn [map app]. rewrite (tidy_strip Ht).
  destruct s as [|c s]; [congruence | reflexivity].
Qed.

End Ink.

(** X1. The clean-up changes white space only: the characters of the
    cleaned text that are not white space are those of the text of the
    page, in the same order. *)
Theorem clean_up_keeps_ink (links_wanted : bool) (sp : soup) :
  ink (fst (clean_and_collect links_wanted sp))
  = ink (soup_get_text (decompose_all REMOVED sp)).
Proof. apply ink_clean_text. Qed.

(** X2. The cleaned text is empty exactly when the text of the page is
    white space only (or empty). *)
Theorem clean_text_empty_iff (t : str) :
  clean_text t = [] <-> forallb isspace t = true.
Proof.
  rewrite <- ink_nil_all_space, <- (ink_clean_text t). split.
  - intros ->. reflexivity.
  - intros H. destruct (clean_text_empty_or_tidy t) as [E | Ht];
      [exact E | destruct (tidy_ink Ht H)].
Qed.

(** X3. Cleaning a cleaned text gives it back. *)
Theorem clean_text_idempotent (t : str) :
  clean_text (clean_text t) = clean_text t.
Proof.
  destruct (clean_text_empty_or_tidy t) as [-> | Ht]; [reflexivity|].
  apply clean_text_of_tidy; [exact Ht | apply clean_text_no_linebreak].
Qed.

(** X4. The cleaned text is one line with no white space at either end:
    it has no line boundary character and [strip] leaves it as it is. *)
Theorem clean_text_one_trimmed_line (t : str) :
  Forall not_linebreak (clean_text t)
  /\ strip (clean_text t) = clean_text t
  /\ splitlines (clean_text t)
     = if truthy (clean_text t) then [clean_text t] else [].
Proof.
  split; [apply clean_text_no_linebreak|]. split.
  - destruct (clean_text_empty_or_tidy t) as [-> | Ht];
      [reflexivity | apply tidy_strip; exact Ht].
  - pose proof (clean_text_no_linebreak t) as Hl.
    destruct (clean_text t) as [|c s] eqn:E; [reflexivity|].
    apply splitlines_one_line; [exact Hl | discriminate].
Qed.

(* ================================================================= *)
(** ** The page after the removal, and its links *)

Section Pruned.

Lemma decompose_all_unchanged (names : list str) (sp : soup) :
  find_all names None sp = [] -> decompose_all names sp = sp.
Proof.
  induction sp as [|n sp IH]; [reflexivity|].
  unfold find_all. change (n :: sp) with ([n] ++ sp).
  rewrite descendants_app, filter_app. intros H.
  apply app_eq_nil in H. destruct H as [Hn Hsp].
  change ([n] ++ sp) with (n :: sp).
  rewrite decompose_all_cons, (IH Hsp), (decompose_in_unchanged _ _ Hn).
  reflexivity.
Qed.

Lemma soup_get_text_app (a b : soup) :
  soup_get_text (a ++ b) = soup_get_text a ++ soup_get_text b.
Proof. apply flat_map_app. Qed.

(** The removal adds no text. *)
Lemma get_text_decompose_in (names : list str) (n : node) :
  incl (soup_get_text (decompose_in names n)) (get_text n).
Proof.
  induction n as [s | s | name attrs contents IH] using node_ind_nested.
  - cbn. rewrite app_nil_r. apply incl_refl.
  - cbn. apply incl_refl.
  - rewrite decompose_in_Tag. destruct (name_in name names).
    + intros c [].
    + cbn [soup_get_text flat_map get_text]. rewrite app_nil_r.
      fold (soup_get_text (decompose_all names contents)).
      fold (soup_get_text contents).
      induction IH as [|child rest Hchild _ IHrest]; [apply incl_refl|].
      rewrite decompose_all_cons, soup_get_text_app.
      change (child :: rest) with ([child] ++ rest).
      rewrite (soup_get_text_app [child] rest).
      apply incl_app.
      * apply incl_appl. cbn. rewrite app_nil_r. exact Hchild.
      * apply incl_appr. exact IHrest.
Qed.

Lemma get_text_decompose_all (names : list str) (sp : soup) :
  incl (soup_get_text (decompose_all names sp)) (soup_get_text sp).
Proof.
  induction sp as [|n sp IH]; [apply incl_refl|].
  rewrite decompose_all_cons, soup_get_text_app.
  change (n :: sp) with ([n] ++ sp). rewrite (soup_get_text_app [n] sp).
  apply incl_app.
  - apply incl_appl. cbn. rewrite app_nil_r. apply get_text_decompose_in.
  - apply incl_appr. exact IH.
Qed.

Lemma truthy_ink_exists (s : str) :
  truthy (ink s) = existsb (fun c => negb (isspace c)) s.
Proof.
  induction s as [|c s IH]; [reflexivity|].
  cbn [existsb]. destruct (isspace c) eqn:E.
  - rewrite ink_space by exact E. exact IH.
  - rewrite ink_not_space by exact E. reflexivity.
Qed.

Lemma truthy_strip_ink (s : str) : truthy (strip s) = truthy (ink s).
Proof.
  rewrite <- (ink_strip s). pose proof (strip_first s) as H.
  destruct (strip s) as [|c r]; [reflexivity|].
  cbn [first_is] in H. rewrite ink_not_space by exact H. reflexivity.
Qed.

Lemma truthy_strip_incl (a b : str) :
  incl a b -> truthy (strip a) = true -> truthy (strip b) = true.
Proof.
  rewrite !truthy_strip_ink, !truthy_ink_exists, !existsb_exists.
  intros Hincl (c & Hc & E). exists c. split; [apply Hincl; exact Hc | exact E].
Qed.

Lemma strip_idempotent (s : str) : strip (strip s) = strip s.
Proof.
  pose proof (strip_first s) as Hf. pose proof (strip_last s) as Hl.
  destruct (strip s) as [|c r] eqn:E; [reflexivity|].
  unfold strip at 1. rewrite lstrip_id by exact Hf.
  apply rstrip_id; [discriminate | exact Hl].
Qed.

Lemma linkable_anchor_decompose (names : list str) (name : str)
  (attrs : list (str * str)) (contents : list node) :
  linkable_anchor (Tag name attrs (decompose_all names contents)) = true ->
  linkable_anchor (Tag name attrs contents) = true.
Proof.
  unfold linkable_anchor, linkable, anchor_text.
  cbn [is_anchor anchor_href get_text].
  rewrite !andb_true_iff. intros (Ha & Ht & Hh).
  repeat split; [exact Ha | | exact Hh].
  exact (truthy_strip_incl (get_text_decompose_all names contents) Ht).
Qed.

Lemma linkable_count_decompose_in (names : list str) (n : node) :
  (List.length (filter linkable_anchor (descendants (decompose_in names n)))
   <= List.length (filter linkable_anchor (self_and_descendants n)))%nat.
Proof.
  induction n as [s | s | name attrs contents IH] using node_ind_nested.
  - cbn. lia.
  - cbn. lia.
  - rewrite decompose_in_Tag. destruct (name_in name names).
    + cbn [descendants flat_map filter List.length]. lia.
    + unfold descendants. cbn [flat_map self_and_descendants].
      rewrite app_nil_r. cbn [filter].
      fold (descendants (decompose_all names contents)).
      fold (descendants contents).
      assert (Hrest :
        (List.length (filter linkable_anchor
                        (descendants (decompose_all names contents)))
         <= List.length (filter linkable_anchor (descendants contents)))%nat).
      { clear -IH.
        induction IH as [|child rest Hchild _ IHrest]; [cbn; lia|].
        rewrite decompose_all_cons, descendants_app, filter_app,
          length_app.
        change (child :: rest) with ([child] ++ rest).
        rewrite (descendants_app [child] rest), filter_app, length_app.
        unfold descendants at 3. cbn [flat_map]. rewrite app_nil_r. lia. }
      destruct (linkable_anchor
                  (Tag name attrs (decompose_all names contents))) eqn:E.
      * rewrite (linkable_anchor_decompose _ _ _ _ E). cbn [List.length]. lia.
      * destruct (linkable_anchor (Tag name attrs contents));
          cbn [List.length]; lia.
Qed.

Lemma linkable_count_decompose_all (names : list str) (sp : soup) :
  (List.length (filter linkable_anchor (descendants (decompose_all names sp)))
   <= List.length (filter linkable_anchor (descendants sp)))%nat.
Proof.
  induction sp as [|n sp IH]; [cbn; lia|].
  rewrite decompose_all_cons, descendants_app, filter_app, length_app.
  change (n :: sp) with ([n] ++ sp).
  rewrite (descendants_app [n] sp), filter_app, length_app.
  pose proof (linkable_count_decompose_in names n) as H.
  unfold descendants at 3. cbn [flat_map]. rewrite app_nil_r. lia.
Qed.

Lemma filter_linkable_anchors (l : list node) :
  filter linkable (filter is_anchor l) = filter linkable_anchor l.
Proof.
  induction l as [|n l IH]; [reflexivity|].
  unfold linkable_anchor in *. cbn [filter].
  destruct (is_anchor n); cbn [filter andb]; rewrite IH; reflexivity.
Qed.

Lemma links_of_length (sp : soup) :
  List.length (links_of sp)
  = List.length (filter linkable_anchor (descendants sp)).
Proof.
  unfold links_of, anchors.
  rewrite length_map, filter_linkable_anchors. reflexivity.
Qed.

Lemma links_of_well_formed (sp : soup) :
  Forall well_formed_link (links_of sp).
Proof.
  unfold links_of. apply Forall_forall. intros l H.
  apply in_map_iff in H. destruct H as (n & <- & Hn).
  apply filter_In in Hn. destruct Hn as [_ Hn].
  unfold linkable in Hn. apply andb_true_iff in Hn. destruct Hn as [Ht Hh].
  exists (anchor_text n), (anchor_href n). repeat split.
  - destruct (anchor_text n); [discriminate | discriminate].
  - destruct (anchor_href n); [discriminate | discriminate].
  - apply strip_idempotent.
Qed.

End Pruned.

(** X5. After the loop of lines 60-61 no [script], [style], [nav],
    [header] or [footer] element is left in the tree, at any depth. *)
Theorem no_removed_element_left (sp : soup) :
  find_all REMOVED None (decompose_all REMOVED sp) = [].
Proof. apply decompose_all_leaves_none. Qed.

(** X6. For a page that has none of these elements, the text is the
    clean-up of all the text of the page and the links are those of all
    its anchors. *)
Theorem plain_page_kept_whole (links_wanted : bool) (sp : soup) :
  find_all REMOVED None sp = [] ->
  clean_and_collect links_wanted sp
  = (clean_text (soup_get_text sp),
     if links_wanted then links_of sp else []).
Proof.
  intros H. unfold clean_and_collect.
  rewrite (decompose_all_unchanged _ _ H), collect_links_links_of.
  reflexivity.
Qed.

Lemma plain_page_kept_whole_witness :
  let sp := [Tag (lit "p") []
               [NavigableString (lit "see ");
                Tag (lit "a") [(lit "href", lit "/x")]
                  [NavigableString (lit "here")]]] in
  find_all REMOVED None sp = []
  /\ clean_and_collect true sp = (lit "see here", [lit "here: /x"]).
Proof.
  cbv zeta. split; [reflexivity|].
  refine (@plain_page_kept_whole true
            [Tag (lit "p") []
               [NavigableString (lit "see ");
                Tag (lit "a") [(lit "href", lit "/x")]
                  [NavigableString (lit "here")]]] eq_refl).
Defined.

(** X7. Every link returned is a non-empty text with no white space at
    either end, then ": ", then a non-empty address. *)
Theorem links_well_formed (links_wanted : bool) (sp : soup) :
  Forall well_formed_link (snd (clean_and_collect links_wanted sp)).
Proof.
  destruct links_wanted; [|constructor].
  unfold clean_and_collect. cbn [snd]. rewrite collect_links_links_of.
  apply links_of_well_formed.
Qed.

(** X8. There are at most as many links as the page has anchors with a
    non-empty trimmed text and a non-empty [href]. *)
Theorem links_at_most_linkable_anchors (links_wanted : bool) (sp : soup) :
  (List.length (snd (clean_and_collect links_wanted sp))
   <= List.length (filter linkable_anchor (descendants sp)))%nat.
Proof.
  destruct links_wanted; [|cbn; lia].
  unfold clean_and_collect. cbn [snd].
  rewrite collect_links_links_of, links_of_length.
  apply linkable_count_decompose_all.
Qed.

(* ================================================================= *)
(** ** What reaches the prompt *)

(** X9. For a budget from 1000 to 10000 the prompt is the same as for the
    text cut to the budget and the first 20 links: no character of the
    text beyond the budget and no link beyond the twentieth has any
    effect on it. *)
Theorem prompt_ignores_the_rest (G : Widgets) (t : str) (links : list str)
  (request : str) :
  (1000 <= max_chars G <= 10000)%Z ->
  extraction_prompt G t links request
  = extraction_prompt G (firstn (Z.to_nat (max_chars G)) t)
      (firstn 20 links) request.
Proof.
  intros Hk. unfold extraction_prompt, content_to_analyze.
  rewrite !slice_to_nonneg by lia.
  rewrite firstn_firstn, Nat.min_id, firstn_firstn, Nat.min_id.
  replace (truthy (firstn 20 links)) with (truthy links)
    by (destruct links; reflexivity).
  reflexivity.
Qed.

Lemma prompt_ignores_the_rest_witness :
  let G := mkWidgets (lit "secret") (lit "prices") (lit "https://example.com")
             (lit "gemini-1.5-flash") 1000 true (1 # 10) in
  (1000 <= max_chars G <= 10000)%Z
  /\ extraction_prompt G (repeat 97%N 1200) (repeat (lit "a: /a") 25)
       (lit "prices")
     = extraction_prompt G (repeat 97%N 1000) (repeat (lit "a: /a") 20)
         (lit "prices").
Proof.
  cbv zeta. split; [simpl; lia|].
  refine (@prompt_ignores_the_rest
            (mkWidgets (lit "secret") (lit "prices")
               (lit "https://example.com") (lit "gemini-1.5-flash")
               1000 true (1 # 10))
            (repeat 97%N 1200) (repeat (lit "a: /a") 25) (lit "prices") _).
  simpl; lia.
Defined.

(* ================================================================= *)
(** ** The outcomes of [scrape_website] *)

Section Outcomes.

Variables (W : World) (G : Widgets) (page_url : str).

Lemma status_accepted (r : Response) :
  ~ (400 <= status_code r < 600)%Z ->
  raise_for_status r = ([], inl tt).
Proof.
  intros H. rewrite raise_for_status_cases.
  destruct ((400 <=? status_code r) && (status_code r <? 500))%Z eqn:E1.
  - apply andb_true_iff in E1. destruct E1 as [E1 E2].
    apply Z.leb_le in E1. apply Z.ltb_lt in E2. lia.
  - destruct ((500 <=? status_code r) && (status_code r <? 600))%Z eqn:E2;
      [|reflexivity].
    apply andb_true_iff in E2. destruct E2 as [E2 E3].
    apply Z.leb_le in E2. apply Z.ltb_lt in E3. lia.
Qed.

Lemma scrape_website_success (r : Response) (sp : soup) :
  requests_get W page_url USER_AGENT 10 = inl r ->
  ~ (400 <= status_code r < 600)%Z ->
  BeautifulSoup W (content r) = inl sp ->
  scrape_website W G page_url
  = ([HttpGet page_url USER_AGENT 10],
     inl (Some (fst (clean_and_collect (include_links G) sp)),
          snd (clean_and_collect (include_links G) sp), None)).
Proof.
  intros Hget Hstatus Hparse.
  unfold scrape_website, try_except, bind, call.
  rewrite Hget, (status_accepted _ Hstatus), Hparse.
  destruct (clean_and_collect (include_links G) sp) as [text links].
  reflexivity.
Qed.

Lemma scrape_website_parse_failure (msg : str) :
  parse_failure W page_url msg ->
  scrape_website W G page_url
  = ([HttpGet page_url USER_AGENT 10],
     inl (None, [], Some (PARSE_FAILED ++ msg))).
Proof.
  intros H. unfold scrape_website, try_except, bind, call.
  inversion H as [m Hget | r m Hget Hstatus Hparse]; subst.
  - rewrite Hget. reflexivity.
  - rewrite Hget, (status_accepted _ Hstatus), Hparse. reflexivity.
Qed.

(** Text and no error, or an error and nothing else. *)
Lemma scrape_website_shape :
  (exists text links,
      value (scrape_website W G page_url) = inl (Some text, links, None))
  \/ (exists msg,
         value (scrape_website W G page_url)
         = inl (None, [], Some (FETCH_FAILED ++ msg)))
  \/ (exists msg,
         value (scrape_website W G page_url)
         = inl (None, [], Some (PARSE_FAILED ++ msg))).
Proof.
  unfold scrape_website, try_except, bind, call, value.
  destruct (requests_get W page_url USER_AGENT 10) as [r | [msg | msg]].
  - rewrite raise_for_status_cases.
    destruct ((400 <=? status_code r) && (status_code r <? 500))%Z;
      [right; left; eexists; reflexivity|].
    destruct ((500 <=? status_code r) && (status_code r <? 600))%Z;
      [right; left; eexists; reflexivity|].
    destruct (BeautifulSoup W (content r)) as [sp | [msg | msg]].
    + left. destruct (clean_and_collect (include_links G) sp) as [t l].
      do 2 eexists. reflexivity.
    + right; left; eexists; reflexivity.
    + right; right; eexists; reflexivity.
  - right; left; eexists; reflexivity.
  - right; right; eexists; reflexivity.
Qed.

End Outcomes.

(** X10. [scrape_website] never raises and returns one of three things:
    a text with its links and no error; no text, no link and an error
    that starts with "Failed to fetch webpage: "; or no text, no link
    and an error that starts with "Error parsing webpage: ". *)
Theorem scrape_website_text_or_error (W : World) (G : Widgets)
  (page_url : str) :
  (exists text links,
      value (scrape_website W G page_url) = inl (Some text, links, None))
  \/ (exists msg,
         value (scrape_website W G page_url)
         = inl (None, [], Some (FETCH_FAILED ++ msg)))
  \/ (exists msg,
         value (scrape_website W G page_url)
         = inl (None, [], Some (PARSE_FAILED ++ msg))).
Proof. apply scrape_website_shape. Qed.

(** X11. When the HTTP client answers with a status outside 400-599
    (2xx, but also 1xx and 3xx) and the parser returns a tree,
    [scrape_website] returns the cleaned text and the links of that tree
    and no error. *)
Theorem accepted_status_is_scraped (W : World) (G : Widgets)
  (page_url : str) (r : Response) (sp : soup) :
  requests_get W page_url USER_AGENT 10 = inl r ->
  ~ (400 <= status_code r < 600)%Z ->
  BeautifulSoup W (content r) = inl sp ->
  value (scrape_website W G page_url)
  = inl (Some (fst (clean_and_collect (include_links G) sp)),
         snd (clean_and_collect (include_links G) sp), None).
Proof.
  intros Hget Hstatus Hparse.
  rewrite (@scrape_website_success W G page_url r sp Hget Hstatus Hparse).
  reflexivity.
Qed.

Lemma accepted_status_is_scraped_witness :
  let W := example_world (page 203 "Non-Authoritative Information" FIXTURE)
             (inl []) in
  let G := example_widgets false in
  value (scrape_website W G (source_url G))
  = inl (Some (lit "TitlePrice: $10 Price: $20"), [], None).
Proof.
  cbv zeta.
  refine (@accepted_status_is_scraped
            (example_world
               (page 203 "Non-Authoritative Information" FIXTURE) (inl []))
            (example_widgets false) (source_url (example_widgets false))
            (mkResponse 203 (lit "Non-Authoritative Information")
               (lit "https://example.com/") FIXTURE)
            (HtmlParser.parse FIXTURE) eq_refl _ eq_refl).
  simpl; lia.
Defined.

(** X12. An exception that is not a [RequestException] is reported as
    "Error parsing webpage: " with its message, whether the parser
    raised it or the HTTP client did before anything was parsed. *)
Theorem other_exception_reported_as_parsing (W : World) (G : Widgets)
  (page_url : str) (msg : str) :
  parse_failure W page_url msg ->
  trace (scrape_website W G page_url) = [HttpGet page_url USER_AGENT 10]
  /\ value (scrape_website W G page_url)
     = inl (None, [], Some (PARSE_FAILED ++ msg)).
Proof.
  intros H. rewrite (@scrape_website_parse_failure W G page_url msg H).
  split; reflexivity.
Qed.

Lemma other_exception_reported_as_parsing_witness :
  let W := example_world (inr (OtherException (lit "bad label")))
             (inl []) in
  let G := example_widgets false in
  parse_failure W (source_url G) (lit "bad label")
  /\ value (scrape_website W G (source_url G))
     = inl (None, [], Some (lit "Error parsing webpage: bad label")).
Proof.
  cbv zeta.
  assert (H : parse_failure
                (example_world (inr (OtherException (lit "bad label")))
                   (inl []))
                (source_url (example_widgets false)) (lit "bad label")).
  { apply client_raised_other. reflexivity. }
  split; [exact H|].
  exact (proj2 (@other_exception_reported_as_parsing _
                  (example_widgets false) _ _ H)).
Defined.

(* ================================================================= *)
(** ** Every run of the button *)

Section EveryRun.

Variables (W : World) (G : Widgets).

Hypothesis prompt_given : truthy (prompt G) = true.
Hypothesis url_given : truthy (source_url G) = true.
Hypothesis key_given : truthy (api_key G) = true.

Lemma run_after_answer (t : str) (links : list str) (answer : str) :
  value (scrape_website W G (source_url G)) = inl (Some t, links, None) ->
  generate_content W (api_key G) (model_choice G)
    (extraction_prompt G t links (prompt G)) (temperature G) 2048
  = inl answer ->
  start_scraping W G
  = (FETCH_EVENTS G ++ GENERATE_EVENTS G t links
     ++ [StSuccess SUCCESS;
         ShowResults answer (List.length t) (List.length links)
           (model_choice G) (truthy links && include_links G)]
     ++ CLEAN_UP, inl tt).
Proof.
  intros Hv Hg.
  destruct (scrape_website_returns W G (source_url G)) as [x Hx].
  rewrite Hx in Hv. cbn in Hv. inversion Hv; subst x.
  unfold start_scraping. cbn [forallb].
  rewrite prompt_given, url_given, key_given. cbn [andb negb].
  unfold bind at 1 2 3 4 5. unfold emit at 1 2 3 4. rewrite Hx.
  cbn [truthy_opt].
  unfold bind at 2 3 4. unfold emit at 1 2.
  rewrite extract_with_gemini_run, Hg.
  reflexivity.
Qed.

(** The prefix of the error brings neither "key" nor "quota". *)
Lemma key_after_prefix (raw : str) :
  contains (lower (GEMINI_ERROR ++ raw)) (lit "key")
  = contains (lower raw) (lit "key").
Proof. rewrite lower_gemini_error. reflexivity. Qed.

Lemma quota_after_prefix (raw : str) :
  contains (lower (GEMINI_ERROR ++ raw)) (lit "quota")
  = contains (lower raw) (lit "quota").
Proof. rewrite lower_gemini_error. reflexivity. Qed.

Lemma hint_events_error_hint (raw : str) :
  match error_hint (GEMINI_ERROR ++ raw) with
  | Some hint => [StInfo hint]
  | None => []
  end = hint_events raw.
Proof.
  rewrite error_hint_after_prefix, key_after_prefix, quota_after_prefix.
  unfold hint_events.
  destruct (contains (lower raw) (lit "key")); [reflexivity|].
  destruct (contains (lower raw) (lit "quota")); reflexivity.
Qed.

Lemma run_after_failure (t : str) (links : list str) (e : exn) :
  value (scrape_website W G (source_url G)) = inl (Some t, links, None) ->
  generate_content W (api_key G) (model_choice G)
    (extraction_prompt G t links (prompt G)) (temperature G) 2048 = inr e ->
  start_scraping W G
  = (FETCH_EVENTS G ++ GENERATE_EVENTS G t links
     ++ [StError (CROSS ++ lit " " ++ GEMINI_ERROR ++ exn_message e)]
     ++ hint_events (exn_message e) ++ CLEAN_UP, inl tt).
Proof.
  intros Hv Hg.
  rewrite (@run_after_generation_error W G prompt_given url_given key_given
             t links e Hv Hg).
  rewrite hint_events_error_hint. reflexivity.
Qed.

Lemma network_calls_hint (raw : str) (rest : list event) :
  network_calls (hint_events raw ++ rest) = network_calls rest.
Proof.
  unfold hint_events.
  destruct (contains (lower raw) (lit "key")); [reflexivity|].
  destruct (contains (lower raw) (lit "quota")); reflexivity.
Qed.

Lemma every_run :
  value (start_scraping W G) = inl tt
  /\ (exists before, trace (start_scraping W G) = before ++ CLEAN_UP)
  /\ (network_calls (trace (start_scraping W G))
      = [HttpGet (source_url G) USER_AGENT 10]
      \/ exists request,
           network_calls (trace (start_scraping W G))
           = [HttpGet (source_url G) USER_AGENT 10;
              Generate (api_key G) (model_choice G) request
                (temperature G) 2048]).
Proof.
  destruct (scrape_website_shape W G (source_url G))
    as [(t & links & Hv) | [(msg & Hv) | (msg & Hv)]].
  - destruct (generate_content W (api_key G) (model_choice G)
                (extraction_prompt G t links (prompt G)) (temperature G)
                2048) as [answer | e] eqn:Hg.
    + rewrite (run_after_answer Hv Hg). split; [reflexivity|]. split.
      * eexists. rewrite !app_assoc. reflexivity.
      * right. eexists. reflexivity.
    + rewrite (run_after_failure Hv Hg). split; [reflexivity|]. split.
      * eexists. rewrite !app_assoc. reflexivity.
      * right. eexists. cbn [trace fst].
        unfold FETCH_EVENTS, GENERATE_EVENTS.
        cbn [app network_calls filter is_network_call].
        fold (network_calls (hint_events (exn_message e) ++ CLEAN_UP)).
        rewrite network_calls_hint. reflexivity.
  - rewrite (@run_after_fetch_error W G prompt_given url_given key_given
               _ _ _ Hv).
    split; [reflexivity|]. split.
    + exists [Progress 0; StatusEmpty; StatusText FETCHING; Progress 25;
              HttpGet (source_url G) USER_AGENT 10;
              StError (CROSS ++ lit " " ++ FETCH_FAILED ++ msg)].
      reflexivity.
    + left. reflexivity.
  - rewrite (@run_after_fetch_error W G prompt_given url_given key_given
               _ _ _ Hv).
    split; [reflexivity|]. split.
    + exists [Progress 0; StatusEmpty; StatusText FETCHING; Progress 25;
              HttpGet (source_url G) USER_AGENT 10;
              StError (CROSS ++ lit " " ++ PARSE_FAILED ++ msg)].
      reflexivity.
    + left. reflexivity.
Qed.

End EveryRun.

(** X13. When the three inputs are given, the fetch returns a text and the
    generation answers, the run is: the fetch, the generation with the
    prompt built from that text, the success message and the result with
    the length of the whole cleaned text and the number of all the links
    (not of what the budget and the cap of 20 let through), then the
    clean-up. *)
Theorem successful_run (W : World) (G : Widgets) (t : str)
  (links : list str) (answer : str) :
  truthy (prompt G) = true ->
  truthy (source_url G) = true ->
  truthy (api_key G) = true ->
  value (scrape_website W G (source_url G)) = inl (Some t, links, None) ->
  generate_content W (api_key G) (model_choice G)
    (extraction_prompt G t links (prompt G)) (temperature G) 2048
  = inl answer ->
  trace (start_scraping W G)
  = FETCH_EVENTS G ++ GENERATE_EVENTS G t links
    ++ [StSuccess SUCCESS;
        ShowResults answer (List.length t) (List.length links)
          (model_choice G) (truthy links && include_links G)]
    ++ CLEAN_UP.
Proof.
  intros Hp Hu Hk Hv Hg.
  rewrite (@run_after_answer W G Hp Hu Hk t links answer Hv Hg).
  reflexivity.
Qed.

Lemma successful_run_witness :
  let W := example_world (page 200 "OK" FIXTURE) (inl (lit "$10, $20")) in
  let G := example_widgets false in
  In (ShowResults (lit "$10, $20") 26 0 (lit "gemini-1.5-flash") false)
     (trace (start_scraping W G)).
Proof.
  cbv zeta.
  rewrite (@successful_run
             (example_world (page 200 "OK" FIXTURE) (inl (lit "$10, $20")))
             (example_widgets false)
             (lit "TitlePrice: $10 Price: $20") [] (lit "$10, $20")
             eq_refl eq_refl eq_refl eq_refl eq_refl).
  simpl. tauto.
Defined.

(** X14. When the three inputs are given, whatever the world answers, the
    run does not raise, ends with the clean-up (sleep, then the status
    line and the progress bar cleared), and its calls to the network are
    the one GET of the URL as typed, followed by at most one call of the
    generation service with the key, the model and the temperature of
    the widgets and a limit of 2048 tokens. *)
Theorem run_calls_and_clean_up (W : World) (G : Widgets) :
  truthy (prompt G) = true ->
  truthy (source_url G) = true ->
  truthy (api_key G) = true ->
  value (start_scraping W G) = inl tt
  /\ (exists before, trace (start_scraping W G) = before ++ CLEAN_UP)
  /\ (network_calls (trace (start_scraping W G))
      = [HttpGet (source_url G) USER_AGENT 10]
      \/ exists request,
           network_calls (trace (start_scraping W G))
           = [HttpGet (source_url G) USER_AGENT 10;
              Generate (api_key G) (model_choice G) request
                (temperature G) 2048]).
Proof. intros Hp Hu Hk. exact (every_run W G Hp Hu Hk). Qed.

Lemma run_calls_and_clean_up_witness :
  let W := example_world (page 200 "OK" FIXTURE)
             (inr (OtherException (lit "429 quota exceeded"))) in
  let G := example_widgets true in
  value (start_scraping W G) = inl tt.
Proof.
  cbv zeta.
  exact (proj1 (@run_calls_and_clean_up
                  (example_world (page 200 "OK" FIXTURE)
                     (inr (OtherException (lit "429 quota exceeded"))))
                  (example_widgets true) eq_refl eq_refl eq_refl)).
Defined.

(** X15. When the generation fails, the hint shown after the error
    depends on the message of the exception alone: the key hint when its
    lower-case form has "key" in it, else the quota hint when it has
    "quota", else no hint at all; the prefix "Gemini API error: " brings
    the "api" the test asks for and neither of the two words. *)
Theorem hint_follows_raw_message (W : World) (G : Widgets) (t : str)
  (links : list str) (e : exn) :
  truthy (prompt G) = true ->
  truthy (source_url G) = true ->
  truthy (api_key G) = true ->
  value (scrape_website W G (source_url G)) = inl (Some t, links, None) ->
  generate_content W (api_key G) (model_choice G)
    (extraction_prompt G t links (prompt G)) (temperature G) 2048 = inr e ->
  trace (start_scraping W G)
  = FETCH_EVENTS G ++ GENERATE_EVENTS G t links
    ++ [StError (CROSS ++ lit " " ++ GEMINI_ERROR ++ exn_message e)]
    ++ hint_events (exn_message e) ++ CLEAN_UP.
Proof.
  intros Hp Hu Hk Hv Hg.
  rewrite (@run_after_failure W G Hp Hu Hk t links e Hv Hg). reflexivity.
Qed.

Lemma hint_follows_raw_message_witness :
  let W := example_world (page 200 "OK" FIXTURE)
             (inr (OtherException (lit "429 Quota exceeded"))) in
  let G := example_widgets false in
  hint_events (lit "429 Quota exceeded") = [StInfo QUOTA_HINT]
  /\ In (StInfo QUOTA_HINT) (trace (start_scraping W G)).
Proof.
  cbv zeta. split; [reflexivity|].
  rewrite (@hint_follows_raw_message
             (example_world (page 200 "OK" FIXTURE)
                (inr (OtherException (lit "429 Quota exceeded"))))
             (example_widgets false)
             (lit "TitlePrice: $10 Price: $20") []
             (OtherException (lit "429 Quota exceeded"))
             eq_refl eq_refl eq_refl eq_refl eq_refl).
  simpl. tauto.
Defined.

(** X16. The test of line 130 and the list of lines 131-134 agree: the
    run is the one message "Please provide: ..." exactly when the list of
    missing names is not empty, and otherwise it starts the fetch. *)
Theorem validation_agrees_with_list (W : World) (G : Widgets) :
  if truthy (missing_fields G)
  then trace (start_scraping W G) = [StError (missing_message G)]
  else exists rest, trace (start_scraping W G) = FETCH_EVENTS G ++ rest.
Proof.
  rewrite missing_fields_names.
  destruct (truthy (prompt G)) eqn:Hp;
    [|rewrite start_scraping_missing;
      [destruct (negb (truthy (source_url G))),
         (negb (truthy (api_key G))); reflexivity
      | left; apply not_truthy_nil; rewrite Hp; reflexivity]].
  destruct (truthy (source_url G)) eqn:Hu;
    [|rewrite start_scraping_missing;
      [destruct (negb (truthy (api_key G))); reflexivity
      | right; left; apply not_truthy_nil; rewrite Hu; reflexivity]].
  destruct (truthy (api_key G)) eqn:Hk;
    [|rewrite start_scraping_missing;
      [reflexivity
      | right; right; apply not_truthy_nil; rewrite Hk; reflexivity]].
  cbn [negb names_of app truthy].
  destruct (scrape_website_shape W G (source_url G))
    as [(t & links & Hv) | [(msg & Hv) | (msg & Hv)]].
  - destruct (generate_content W (api_key G) (model_choice G)
                (extraction_prompt G t links (prompt G)) (temperature G)
                2048) as [answer | e] eqn:Hg.
    + rewrite (@run_after_answer W G Hp Hu Hk t links answer Hv Hg).
      eexists. reflexivity.
    + rewrite (@run_after_failure W G Hp Hu Hk t links e Hv Hg).
      eexists. reflexivity.
  - rewrite (@run_after_fetch_error W G Hp Hu Hk _ _ _ Hv).
    eexists. reflexivity.
  - rewrite (@run_after_fetch_error W G Hp Hu Hk _ _ _ Hv).
    eexists. reflexivity.
Qed.
